(** * cjdcoind: script builder, chain-parameter registry and block index

    A shallow embedding of three parts of the node:

    - [scriptbuilder]: [txscript/scriptbuilder/scriptbuilder.go], the
      canonical push encoder with its sticky error;
    - [chaincfg]: the network-parameter registry ([Register] and the
      lookup predicates) together with the six built-in networks;
    - [btcdb]: the block and transaction index behind the [btcdb.Db]
      interface that the interface tests exercise.

    Go integers are embedded as [Z] with the conversions written out, byte
    slices as [list Z] whose elements lie in [0, 256), Go strings as
    [string] (a Go string is a sequence of bytes), Go maps as [gmap] and
    [gset]. Methods with a pointer receiver become functions from the old
    value of the receiver to the new one. *)

From Stdlib Require Import ZArith List String Ascii Bool Lia.
From stdpp Require Import gmap strings list fin_maps.

Import ListNotations.
Local Open Scope Z_scope.

(** ** Byte-level helpers *)

(** A Go [byte] is an integer in [0, 256). *)
Definition is_byte (z : Z) : Prop := 0 <= z < 256.

(** Go's conversion [byte(x)] of an integer: truncation to eight bits. *)
Definition to_byte (z : Z) : Z := z mod 256.

(** Go's [len] on a slice. *)
Definition len {A} (l : list A) : Z := Z.of_nat (length l).

(** [binary.LittleEndian.PutUint16(buf, v)] on a fresh two-byte buffer. *)
Definition PutUint16 (v : Z) : list Z :=
  [to_byte v; to_byte (Z.shiftr v 8)].

(** [binary.LittleEndian.PutUint32(buf, v)] on a fresh four-byte buffer. *)
Definition PutUint32 (v : Z) : list Z :=
  [to_byte v; to_byte (Z.shiftr v 8);
   to_byte (Z.shiftr v 16); to_byte (Z.shiftr v 24)].

(** Go's conversions [uint16(x)] and [uint32(x)]. *)
Definition to_uint16 (z : Z) : Z := z mod 65536.
Definition to_uint32 (z : Z) : Z := z mod 4294967296.

Lemma len_nonneg {A} (l : list A) : 0 <= len l.
Proof. unfold len. lia. Qed.

Lemma len_app {A} (l k : list A) : len (l ++ k) = len l + len k.
Proof. unfold len. rewrite length_app. lia. Qed.

Lemma len_cons {A} (x : A) (l : list A) : len (x :: l) = 1 + len l.
Proof. unfold len. simpl length. lia. Qed.

Lemma len_nil {A} : len (@nil A) = 0.
Proof. reflexivity. Qed.

(** ** Script opcodes and engine limits *)

Module opcode.

(** Modelled from the spec: the package [txscript/opcode] is not among the
    sources. The spec names the opcodes [OP_0], [OP_DATA_1..OP_DATA_75],
    [OP_PUSHDATA1], [OP_PUSHDATA2], [OP_PUSHDATA4], [OP_1NEGATE] and
    [OP_1..OP_16]; their numeric values are those of the Bitcoin script
    language, in which the direct-length opcode [OP_DATA_n] is the byte [n]
    and the three opcodes after [OP_DATA_75] are the [OP_PUSHDATA] family. *)
Definition OP_0 : Z := 0x00.
Definition OP_DATA_1 : Z := 0x01.
Definition OP_DATA_75 : Z := 0x4b.
Definition OP_PUSHDATA1 : Z := 0x4c.
Definition OP_PUSHDATA2 : Z := 0x4d.
Definition OP_PUSHDATA4 : Z := 0x4e.
Definition OP_1NEGATE : Z := 0x4f.
Definition OP_1 : Z := 0x51.
Definition OP_16 : Z := 0x60.

(** [OP_DATA_n] for a length [n] in [1, 75]. *)
Definition OP_DATA (n : Z) : Z := n.

(** [OP_n] for a small integer [n] in [1, 16]. *)
Definition OP_N (n : Z) : Z := OP_1 + (n - 1).

End opcode.

Module params.

(** Modelled from the spec: the package [txscript/params] is not among the
    sources. The spec gives the protocol's max-script-size as 10 000 bytes
    and its max-element-size as 520 bytes. *)
Definition MaxScriptSize : Z := 10000.
Definition MaxScriptElementSize : Z := 520.

End params.

(** ** txscript/scriptbuilder *)

Module scriptbuilder.

Import opcode params.

(** The error codes of [txscripterr] that the builder raises. *)
Inductive ErrCode : Type :=
  | ErrScriptNotCanonical.

(** The message of an error, one constructor per format string of the
    builder; the formatted numbers are kept as arguments. *)
Inductive ErrMsg : Type :=
  | MsgAddingOpcode
  | MsgAddingOpcodes
  | MsgAddingData (dataSize : Z)
  | MsgAddingElement (dataLen : Z)
  | MsgAddingInteger.

(** [er.R] as the builder creates it with [ErrScriptNotCanonical.New]. *)
Record R : Type := mkR { code : ErrCode; message : ErrMsg }.

(** [ScriptBuilder]: the script built so far and the first error; a nil
    [ErrInt] is [None]. *)
Record ScriptBuilder : Type := mkBuilder {
  ScriptInt : list Z;
  ErrInt : option R
}.

Definition set_script (b : ScriptBuilder) (s : list Z) : ScriptBuilder :=
  mkBuilder s (ErrInt b).

Definition set_err (b : ScriptBuilder) (e : R) : ScriptBuilder :=
  mkBuilder (ScriptInt b) (Some e).

Definition AddOp (op : Z) (b : ScriptBuilder) : ScriptBuilder :=
  match ErrInt b with
  | Some _ => b
  | None =>
      if len (ScriptInt b) + 1 >? MaxScriptSize then
        set_err b (mkR ErrScriptNotCanonical MsgAddingOpcode)
      else set_script b (ScriptInt b ++ [op])
  end.

Definition AddOps (opcodes : list Z) (b : ScriptBuilder) : ScriptBuilder :=
  match ErrInt b with
  | Some _ => b
  | None =>
      if len (ScriptInt b) + len opcodes >? MaxScriptSize then
        set_err b (mkR ErrScriptNotCanonical MsgAddingOpcodes)
      else set_script b (ScriptInt b ++ opcodes)
  end.

Definition CanonicalDataSize (data : list Z) : Z :=
  let dataLen := len data in
  match data with
  | [] => 1
  | d0 :: _ =>
      if (dataLen =? 1) && (d0 <=? 16) then 1
      else if (dataLen =? 1) && (d0 =? 0x81) then 1
      else if dataLen <? OP_PUSHDATA1 then 1 + dataLen
      else if dataLen <=? 0xff then 2 + dataLen
      else if dataLen <=? 0xffff then 3 + dataLen
      else 5 + dataLen
  end.

Definition addData (data : list Z) (b : ScriptBuilder) : ScriptBuilder :=
  let dataLen := len data in
  match data with
  | [] => set_script b (ScriptInt b ++ [OP_0])
  | d0 :: _ =>
      if (dataLen =? 1) && (d0 =? 0) then
        set_script b (ScriptInt b ++ [OP_0])
      else if (dataLen =? 1) && (d0 <=? 16) then
        set_script b (ScriptInt b ++ [to_byte ((OP_1 - 1) + d0)])
      else if (dataLen =? 1) && (d0 =? 0x81) then
        set_script b (ScriptInt b ++ [to_byte OP_1NEGATE])
      else
        let pushed :=
          if dataLen <? OP_PUSHDATA1 then
            ScriptInt b ++ [to_byte ((OP_DATA_1 - 1) + dataLen)]
          else if dataLen <=? 0xff then
            ScriptInt b ++ [OP_PUSHDATA1; to_byte dataLen]
          else if dataLen <=? 0xffff then
            (ScriptInt b ++ [OP_PUSHDATA2]) ++ PutUint16 (to_uint16 dataLen)
          else
            (ScriptInt b ++ [OP_PUSHDATA4]) ++ PutUint32 (to_uint32 dataLen)
        in set_script b (pushed ++ data)
  end.

Definition AddFullData (data : list Z) (b : ScriptBuilder) : ScriptBuilder :=
  match ErrInt b with
  | Some _ => b
  | None => addData data b
  end.

Definition AddData (data : list Z) (b : ScriptBuilder) : ScriptBuilder :=
  match ErrInt b with
  | Some _ => b
  | None =>
      let dataSize := CanonicalDataSize data in
      if len (ScriptInt b) + dataSize >? MaxScriptSize then
        set_err b (mkR ErrScriptNotCanonical (MsgAddingData dataSize))
      else
        let dataLen := len data in
        if dataLen >? MaxScriptElementSize then
          set_err b (mkR ErrScriptNotCanonical (MsgAddingElement dataLen))
        else addData data b
  end.

Definition Reset (b : ScriptBuilder) : ScriptBuilder :=
  mkBuilder [] None.

Definition Script (b : ScriptBuilder) : list Z * option R :=
  (ScriptInt b, ErrInt b).

Definition NewScriptBuilder : ScriptBuilder := mkBuilder [] None.

Section WithScriptNum.

(** [scriptnum.ScriptNum(val).Bytes()]: the package [txscript/scriptnum] is
    not among the sources, so the serialisation of a script number is a
    parameter of [AddInt64]. *)
Variable ScriptNum_Bytes : Z -> list Z.

Definition AddInt64 (val : Z) (b : ScriptBuilder) : ScriptBuilder :=
  match ErrInt b with
  | Some _ => b
  | None =>
      if len (ScriptInt b) + 1 >? MaxScriptSize then
        set_err b (mkR ErrScriptNotCanonical MsgAddingInteger)
      else if val =? 0 then
        set_script b (ScriptInt b ++ [OP_0])
      else if (val =? -1) || ((val >=? 1) && (val <=? 16)) then
        set_script b (ScriptInt b ++ [to_byte ((OP_1 - 1) + val)])
      else AddData (ScriptNum_Bytes val) b
  end.

(** A call of one of the five building methods. *)
Inductive Call : Type :=
  | CallAddOp (op : Z)
  | CallAddOps (opcodes : list Z)
  | CallAddData (data : list Z)
  | CallAddFullData (data : list Z)
  | CallAddInt64 (val : Z).

Definition call (c : Call) (b : ScriptBuilder) : ScriptBuilder :=
  match c with
  | CallAddOp op => AddOp op b
  | CallAddOps ops => AddOps ops b
  | CallAddData d => AddData d b
  | CallAddFullData d => AddFullData d b
  | CallAddInt64 v => AddInt64 v b
  end.

(** A chain of calls [b.m1(..).m2(..)...], leftmost first. *)
Definition calls (cs : list Call) (b : ScriptBuilder) : ScriptBuilder :=
  fold_left (fun acc c => call c acc) cs b.

(** The calls that check the script size before they push. *)
Definition checked (c : Call) : bool :=
  match c with
  | CallAddFullData _ => false
  | _ => true
  end.

(** The number of bytes a call appends when it succeeds. *)
Definition push_size (c : Call) : Z :=
  match c with
  | CallAddOp _ => 1
  | CallAddOps ops => len ops
  | CallAddData d => CanonicalDataSize d
  | CallAddFullData d => CanonicalDataSize d
  | CallAddInt64 v =>
      if (v =? 0) || (v =? -1) || ((v >=? 1) && (v <=? 16)) then 1
      else CanonicalDataSize (ScriptNum_Bytes v)
  end.

End WithScriptNum.

(** *** The push encoding as the specification words it

    The empty string and the single byte 0 are [OP_0]; the single byte
    [0x81] is [OP_1NEGATE]; a single byte 1..16 is [OP_1..OP_16]; otherwise
    lengths 1..75 use [OP_DATA_len], lengths up to [0xff] use
    [OP_PUSHDATA1] and a one-byte length, lengths up to [0xffff] use
    [OP_PUSHDATA2] and a little-endian two-byte length, larger ones use
    [OP_PUSHDATA4] and a little-endian four-byte length; the data follow. *)

Definition le_bytes2 (n : Z) : list Z := [n mod 256; (n / 256) mod 256].

Definition le_bytes4 (n : Z) : list Z :=
  [n mod 256; (n / 256) mod 256; (n / 65536) mod 256; (n / 16777216) mod 256].

Definition small_int_push (data : list Z) : option (list Z) :=
  match data with
  | [] => Some [OP_0]
  | [d] =>
      if d =? 0 then Some [OP_0]
      else if d =? 0x81 then Some [OP_1NEGATE]
      else if (1 <=? d) && (d <=? 16) then Some [OP_N d]
      else None
  | _ => None
  end.

Definition canonical_push (data : list Z) : list Z :=
  match small_int_push data with
  | Some enc => enc
  | None =>
      let n := len data in
      if n <=? 75 then OP_DATA n :: data
      else if n <=? 0xff then OP_PUSHDATA1 :: n :: data
      else if n <=? 0xffff then OP_PUSHDATA2 :: le_bytes2 n ++ data
      else OP_PUSHDATA4 :: le_bytes4 n ++ data
  end.

(** Every encoding of a push of [data] that the script language offers:
    the small-integer opcode when there is one, and each push opcode whose
    length field can hold [len data]. *)
Definition push_encodings (data : list Z) : list (list Z) :=
  let n := len data in
  match small_int_push data with Some enc => [enc] | None => [] end
  ++ (if (1 <=? n) && (n <=? 75) then [OP_DATA n :: data] else [])
  ++ (if n <=? 0xff then [OP_PUSHDATA1 :: n :: data] else [])
  ++ (if n <=? 0xffff then [OP_PUSHDATA2 :: le_bytes2 n ++ data] else [])
  ++ (if n <=? 0xffffffff then [OP_PUSHDATA4 :: le_bytes4 n ++ data] else []).

End scriptbuilder.

(** ** txscript/scriptnum *)

Module scriptnum.

Fixpoint magnitude (fuel : nat) (n : Z) : list Z :=
  match fuel with
  | O => []
  | S fuel' => if n <=? 0 then [] else (n mod 256) :: magnitude fuel' (n / 256)
  end.

(** Modelled from the spec: the package [txscript/scriptnum] is not among
    the sources. The spec words the encoding of an integer as the minimal
    sign-magnitude little-endian byte string, empty for 0, whose high bit
    is the sign. A 64-bit magnitude has at most eight bytes. *)
Definition Bytes (val : Z) : list Z :=
  let mag := magnitude 8 (Z.abs val) in
  match List.rev mag with
  | [] => []
  | msb :: rest =>
      if msb >=? 0x80 then mag ++ [if val <? 0 then 0x80 else 0x00]
      else if val <? 0 then List.rev (Z.lor msb 0x80 :: rest)
      else mag
  end.

End scriptnum.

(** ** Go's [strings.ToLower] and [strings.ToUpper] *)

Module gostrings.

Local Open Scope N_scope.

(** [utf8.RuneSelf]: bytes below it are single-byte (ASCII) runes. *)
Definition RuneSelf : N := 0x80.

Definition isUpperByte (c : ascii) : bool :=
  (65 <=? N_of_ascii c) && (N_of_ascii c <=? 90).

Definition isLowerByte (c : ascii) : bool :=
  (97 <=? N_of_ascii c) && (N_of_ascii c <=? 122).

(** [c += 'a' - 'A'] on an upper-case letter, and [c -= 'a' - 'A'] on a
    lower-case one. *)
Definition lowerByte (c : ascii) : ascii :=
  if isUpperByte c then ascii_of_N (N_of_ascii c + 32) else c.

Definition upperByte (c : ascii) : ascii :=
  if isLowerByte c then ascii_of_N (N_of_ascii c - 32) else c.

Fixpoint isASCII (s : string) : bool :=
  match s with
  | EmptyString => true
  | String c s' => (N_of_ascii c <? RuneSelf) && isASCII s'
  end.

Fixpoint hasUpper (s : string) : bool :=
  match s with
  | EmptyString => false
  | String c s' => isUpperByte c || hasUpper s'
  end.

Fixpoint hasLower (s : string) : bool :=
  match s with
  | EmptyString => false
  | String c s' => isLowerByte c || hasLower s'
  end.

Fixpoint mapBytes (f : ascii -> ascii) (s : string) : string :=
  match s with
  | EmptyString => EmptyString
  | String c s' => String (f c) (mapBytes f s')
  end.

Section Unicode.

(** [strings.Map(unicode.ToLower, s)] and [strings.Map(unicode.ToUpper, s)],
    which the library applies to a string that has a byte outside ASCII.
    Go's Unicode tables are not part of this repository: the two maps are
    parameters. *)
Variable unicodeLower : string -> string.
Variable unicodeUpper : string -> string.

Definition ToLower (s : string) : string :=
  if isASCII s then
    if hasUpper s then mapBytes lowerByte s else s
  else unicodeLower s.

Definition ToUpper (s : string) : string :=
  if isASCII s then
    if hasLower s then mapBytes upperByte s else s
  else unicodeUpper s.

End Unicode.

End gostrings.

(** ** chaincfg: network parameters and their registry *)

Module chaincfg.

Import gostrings.

(** [math.MaxInt64]. *)
Definition MaxInt64 : Z := 9223372036854775807.

Record ConsensusDeployment : Type := mkDeployment {
  BitNumber : Z;
  StartTime : Z;
  ExpireTime : Z
}.

(** The offsets of the deployments in [Params.Deployments]. *)
Definition DeploymentTestDummy : nat := 0.
Definition DeploymentCSV : nat := 1.
Definition DeploymentSegwit : nat := 2.
Definition DefinedDeployments : nat := 3.

(** A [[4]byte] array. *)
Definition byte4 : Type := (Z * Z * Z * Z)%type.

(** The slice [a[:]] of a [[4]byte] array [a]. *)
Definition slice4 (a : byte4) : list Z :=
  let '(a0, a1, a2, a3) := a in [a0; a1; a2; a3].

(** [Params], with the fields that identify a network, carry its BIP-9
    deployments and feed the registry. The proof-of-work, subsidy,
    checkpoint and seed fields take no part in registration and are left
    out. The array [Deployments] is the list of its [DefinedDeployments]
    elements in index order. *)
Record Params : Type := mkParams {
  Name : string;
  Net : Z;
  DefaultPort : string;
  Deployments : list ConsensusDeployment;
  Bech32HRPSegwit : string;
  PubKeyHashAddrID : Z;
  ScriptHashAddrID : Z;
  PrivateKeyID : Z;
  WitnessPubKeyHashAddrID : Z;
  WitnessScriptHashAddrID : Z;
  HDPrivateKeyID : byte4;
  HDPublicKeyID : byte4;
  HDCoinType : Z
}.

Inductive Err : Type :=
  | ErrDuplicateNet
  | ErrUnknownHDKeyID.

(** The five package-level maps. A Go [map[K]struct{}] is a set of keys. *)
Record Registry : Type := mkRegistry {
  registeredNets : gset Z;
  pubKeyHashAddrIDs : gset Z;
  scriptHashAddrIDs : gset Z;
  bech32SegwitPrefixes : gset string;
  hdPrivToPubKeyIDs : gmap byte4 (list Z)
}.

(** The maps as [make] leaves them, before the package's [init] runs. *)
Definition emptyRegistry : Registry :=
  mkRegistry ∅ ∅ ∅ ∅ ∅.

(** [Register]: the registry after the call and the returned error, [None]
    for nil. *)
Definition Register (params : Params) (r : Registry)
  : Registry * option Err :=
  if decide (Net params ∈ registeredNets r) then (r, Some ErrDuplicateNet)
  else
    (mkRegistry
       ({[Net params]} ∪ registeredNets r)
       ({[PubKeyHashAddrID params]} ∪ pubKeyHashAddrIDs r)
       ({[ScriptHashAddrID params]} ∪ scriptHashAddrIDs r)
       ({[String.append (Bech32HRPSegwit params) "1"]}
          ∪ bech32SegwitPrefixes r)
       (<[HDPrivateKeyID params := slice4 (HDPublicKeyID params)]>
          (hdPrivToPubKeyIDs r)),
     None).

(** [mustRegister] panics on an error: [None]. *)
Definition mustRegister (params : Params) (r : Registry) : option Registry :=
  match Register params r with
  | (r', None) => Some r'
  | (_, Some _) => None
  end.

Definition IsPubKeyHashAddrID (id : Z) (r : Registry) : bool :=
  bool_decide (id ∈ pubKeyHashAddrIDs r).

Definition IsScriptHashAddrID (id : Z) (r : Registry) : bool :=
  bool_decide (id ∈ scriptHashAddrIDs r).

(** [HDPrivateKeyToPublicKeyID] returns the public id or an error. *)
Definition HDPrivateKeyToPublicKeyID (id : list Z) (r : Registry)
  : list Z + Err :=
  match id with
  | [k0; k1; k2; k3] =>
      match hdPrivToPubKeyIDs r !! (k0, k1, k2, k3) with
      | Some pubBytes => inl pubBytes
      | None => inr ErrUnknownHDKeyID
      end
  | _ => inr ErrUnknownHDKeyID
  end.

Section Lookup.

Variable unicodeLower : string -> string.

Definition IsBech32SegwitPrefix (prefix : string) (r : Registry) : bool :=
  let prefix := ToLower unicodeLower prefix in
  bool_decide (prefix ∈ bech32SegwitPrefixes r).

End Lookup.

Section Networks.

(** The network magics [protocol.MainNet], [protocol.TestNet],
    [protocol.TestNet3], [protocol.PktTestNet], [protocol.PktMainNet] and
    [protocol.SimNet]: the package [wire/protocol] is not among the
    sources, so the six constants are parameters. *)
Variables MainNet TestNet TestNet3 PktTestNet PktMainNet SimNet : Z.

Definition MainNetParams : Params := {|
  Name := "mainnet";
  Net := MainNet;
  DefaultPort := "8333";
  Deployments := [
    mkDeployment 28 1199145601 1230767999;
    mkDeployment 0 1462060800 1493596800;
    mkDeployment 1 1479168000 1510704000 ];
  Bech32HRPSegwit := "bc";
  PubKeyHashAddrID := 0x00;
  ScriptHashAddrID := 0x05;
  PrivateKeyID := 0x80;
  WitnessPubKeyHashAddrID := 0x06;
  WitnessScriptHashAddrID := 0x0A;
  HDPrivateKeyID := (0x04, 0x88, 0xad, 0xe4);
  HDPublicKeyID := (0x04, 0x88, 0xb2, 0x1e);
  HDCoinType := 0
|}.

Definition RegressionNetParams : Params := {|
  Name := "regtest";
  Net := TestNet;
  DefaultPort := "18444";
  Deployments := [
    mkDeployment 28 0 MaxInt64;
    mkDeployment 0 0 MaxInt64;
    mkDeployment 1 0 MaxInt64 ];
  Bech32HRPSegwit := "bcrt";
  PubKeyHashAddrID := 0x6f;
  ScriptHashAddrID := 0xc4;
  PrivateKeyID := 0xef;
  WitnessPubKeyHashAddrID := 0;
  WitnessScriptHashAddrID := 0;
  HDPrivateKeyID := (0x04, 0x35, 0x83, 0x94);
  HDPublicKeyID := (0x04, 0x35, 0x87, 0xcf);
  HDCoinType := 1
|}.

Definition TestNet3Params : Params := {|
  Name := "testnet3";
  Net := TestNet3;
  DefaultPort := "18333";
  Deployments := [
    mkDeployment 28 1199145601 1230767999;
    mkDeployment 0 1456790400 1493596800;
    mkDeployment 1 1462060800 1493596800 ];
  Bech32HRPSegwit := "tb";
  PubKeyHashAddrID := 0x6f;
  ScriptHashAddrID := 0xc4;
  PrivateKeyID := 0xef;
  WitnessPubKeyHashAddrID := 0x03;
  WitnessScriptHashAddrID := 0x28;
  HDPrivateKeyID := (0x04, 0x35, 0x83, 0x94);
  HDPublicKeyID := (0x04, 0x35, 0x87, 0xcf);
  HDCoinType := 1
|}.

(** The composite literals of the two PKT networks give the CSV and Segwit
    deployments no [BitNumber]; the field has Go's zero value. *)
Definition PktTestNetParams : Params := {|
  Name := "cjdcointest";
  Net := PktTestNet;
  DefaultPort := "64512";
  Deployments := [
    mkDeployment 28 1199145601 1230767999;
    mkDeployment 0 MaxInt64 MaxInt64;
    mkDeployment 0 MaxInt64 MaxInt64 ];
  Bech32HRPSegwit := "tpk";
  PubKeyHashAddrID := 0x6f;
  ScriptHashAddrID := 0xc4;
  PrivateKeyID := 0xef;
  WitnessPubKeyHashAddrID := 0x03;
  WitnessScriptHashAddrID := 0x28;
  HDPrivateKeyID := (0x04, 0x35, 0x83, 0x94);
  HDPublicKeyID := (0x04, 0x35, 0x87, 0xcf);
  HDCoinType := 1
|}.

Definition PktMainNetParams : Params := {|
  Name := "cjdcoin";
  Net := PktMainNet;
  DefaultPort := "64764";
  Deployments := [
    mkDeployment 28 1199145601 1230767999;
    mkDeployment 0 MaxInt64 MaxInt64;
    mkDeployment 0 MaxInt64 MaxInt64 ];
  Bech32HRPSegwit := "cjdcoin";
  PubKeyHashAddrID := 0x75;
  ScriptHashAddrID := 0x38;
  PrivateKeyID := 0xe0;
  WitnessPubKeyHashAddrID := 0xa3;
  WitnessScriptHashAddrID := 0x22;
  HDPrivateKeyID := (0x6b, 0x86, 0x3b, 0xed);
  HDPublicKeyID := (0x6b, 0x85, 0xc5, 0x3f);
  HDCoinType := 390
|}.

Definition SimNetParams : Params := {|
  Name := "simnet";
  Net := SimNet;
  DefaultPort := "18555";
  Deployments := [
    mkDeployment 28 0 MaxInt64;
    mkDeployment 0 0 MaxInt64;
    mkDeployment 1 0 MaxInt64 ];
  Bech32HRPSegwit := "sb";
  PubKeyHashAddrID := 0x3f;
  ScriptHashAddrID := 0x7b;
  PrivateKeyID := 0x64;
  WitnessPubKeyHashAddrID := 0x19;
  WitnessScriptHashAddrID := 0x28;
  HDPrivateKeyID := (0x04, 0x20, 0xb9, 0x00);
  HDPublicKeyID := (0x04, 0x20, 0xbd, 0x3a);
  HDCoinType := 115
|}.

(** The six built-in networks in the order [init] registers them. *)
Definition defaultNets : list Params :=
  [MainNetParams; TestNet3Params; PktTestNetParams; PktMainNetParams;
   RegressionNetParams; SimNetParams].

(** The package's [init]: the registry it leaves, or [None] when one of
    the [mustRegister] calls panics. *)
Definition init : option Registry :=
  r ← mustRegister MainNetParams emptyRegistry;
  r ← mustRegister TestNet3Params r;
  r ← mustRegister PktTestNetParams r;
  r ← mustRegister PktMainNetParams r;
  r ← mustRegister RegressionNetParams r;
  mustRegister SimNetParams r.

End Networks.

(** [mockNetParams] of the registry's test. *)
Definition mockNetParams : Params := {|
  Name := "mocknet";
  Net := 2 ^ 32 - 1;
  DefaultPort := "";
  Deployments := [
    mkDeployment 0 0 0; mkDeployment 0 0 0; mkDeployment 0 0 0 ];
  Bech32HRPSegwit := "tc";
  PubKeyHashAddrID := 0x9f;
  ScriptHashAddrID := 0xf9;
  PrivateKeyID := 0;
  WitnessPubKeyHashAddrID := 0;
  WitnessScriptHashAddrID := 0;
  HDPrivateKeyID := (0x01, 0x02, 0x03, 0x04);
  HDPublicKeyID := (0x05, 0x06, 0x07, 0x08);
  HDCoinType := 0
|}.

End chaincfg.

(** ** btcdb: the block and transaction index

    Only the interface test of the storage engine is among the sources;
    the engine itself is modelled from the specification's section 4.D.
    The reply record [TxListReply] has the fields the test reads. *)

Module btcdb.

(** Modelled from the spec: a [Hash256] digest, as a number below
    [2^256]. *)
Abbreviation ShaHash := N (only parsing).

(** Modelled from the spec: an outpoint is a txid and an output index. *)
Record OutPoint : Type := mkOutPoint {
  opHash : ShaHash;
  opIndex : N
}.

(** The position of an output in a spent-bitvector. *)
Definition opBit (op : OutPoint) : nat := N.to_nat (opIndex op).

(** Modelled from the spec: coinbase inputs consume nothing; their
    outpoint is the zero hash with index [2^32-1]. *)
Definition isNull (op : OutPoint) : bool :=
  (opHash op =? 0)%N && (opIndex op =? 4294967295)%N.

(** Modelled from the spec: a transaction, reduced to its txid, the
    outpoints its inputs consume and the number of its outputs. *)
Record MsgTx : Type := mkTx {
  TxSha : ShaHash;
  TxIn : list OutPoint;
  NumTxOut : nat
}.

(** Modelled from the spec: a block, reduced to its hash, the hash of its
    predecessor and its ordered transactions. *)
Record Block : Type := mkBlock {
  blockSha : ShaHash;
  prevSha : ShaHash;
  Transactions : list MsgTx
}.

(** Modelled from the spec: a [TxEntry] of the tx index, that is the
    transaction, the hash and height of the block that contains it, and
    the spent-bitvector of its outputs. *)
Record TxEntry : Type := mkEntry {
  entryTx : MsgTx;
  entryBlkSha : ShaHash;
  entryHeight : Z;
  entrySpent : list bool
}.

(** Modelled from the spec: the error kinds of the engine. *)
Inductive DbErr : Type :=
  | BlockNotFound
  | HeightNotFound
  | TxNotFound
  | NoUnspentTx
  | DoubleSpend
  | PrevHashMismatch
  | DuplicateSha.

(** [TxListReply] as the interface test reads it; a nil pointer or slice
    is [None]. *)
Record TxListReply : Type := mkReply {
  Sha : ShaHash;
  Tx : option MsgTx;
  BlkSha : option ShaHash;
  Height : Z;
  TxSpent : option (list bool);
  Err : option DbErr
}.

(** Modelled from the spec: a journal record, which prior entry (txid and
    position in its list) had which bit set by an input. *)
Record SpendRecord : Type := mkSpend {
  spentTx : ShaHash;
  spentPos : nat;
  spentBit : nat
}.

(** Modelled from the spec: the engine's conceptual schema, that is the
    blocks table (hash to height and block), the height index (height to
    hash), the tx index (txid to its entries in insertion order), the
    rollback journal of each block, and the newest-tip metadata, with
    height [-1] for the empty engine. *)
Record Db : Type := mkDb {
  blocks : gmap ShaHash (Z * Block);
  heights : gmap Z ShaHash;
  txIndex : gmap ShaHash (list TxEntry);
  journal : gmap ShaHash (list SpendRecord);
  tipSha : ShaHash;
  tipHeight : Z
}.

Definition emptyDb : Db := mkDb ∅ ∅ ∅ ∅ 0%N (-1).

(** Modelled from the spec: the entries recorded for a txid, oldest
    first. *)
Definition entriesOf (m : gmap ShaHash (list TxEntry)) (sha : ShaHash)
  : list TxEntry :=
  default [] (m !! sha).

(** Modelled from the spec: a fresh entry for a transaction of the block
    being inserted, with an all-zero spent-bitvector, appended to the
    entries of its txid. *)
Definition freshEntry (sha : ShaHash) (h : Z) (tx : MsgTx) : TxEntry :=
  mkEntry tx sha h (replicate (NumTxOut tx) false).

Definition addEntry (sha : ShaHash) (h : Z)
  (m : gmap ShaHash (list TxEntry)) (tx : MsgTx)
  : gmap ShaHash (list TxEntry) :=
  <[TxSha tx := entriesOf m (TxSha tx) ++ [freshEntry sha h tx]]> m.

Definition setBit (bit : nat) (v : bool) (e : TxEntry) : TxEntry :=
  mkEntry (entryTx e) (entryBlkSha e) (entryHeight e)
          (<[bit := v]> (entrySpent e)).

Definition unspentAt (bit : nat) (e : TxEntry) : bool :=
  match entrySpent e !! bit with
  | Some false => true
  | _ => false
  end.

(** The position of the last element of a list that satisfies [P]. *)
Fixpoint findLast {A} (P : A -> bool) (l : list A) : option nat :=
  match l with
  | [] => None
  | x :: l' =>
      match findLast P l' with
      | Some i => Some (S i)
      | None => if P x then Some O else None
      end
  end.

(** Modelled from the spec: the spent-bit update for one input. Among the
    entries of the referenced txid, the most recent one whose bit at the
    outpoint's index is unset gets that bit set; with no such entry the
    input is a double spend ([None]). The choice is journalled. *)
Definition spend (st : gmap ShaHash (list TxEntry) * list SpendRecord)
  (op : OutPoint)
  : option (gmap ShaHash (list TxEntry) * list SpendRecord) :=
  let '(m, jr) := st in
  let l := entriesOf m (opHash op) in
  pos ← findLast (unspentAt (opBit op)) l;
  Some (<[opHash op := alter (setBit (opBit op) true) pos l]> m,
        jr ++ [mkSpend (opHash op) pos (opBit op)]).

Fixpoint spendAll (ops : list OutPoint)
  (st : gmap ShaHash (list TxEntry) * list SpendRecord)
  : option (gmap ShaHash (list TxEntry) * list SpendRecord) :=
  match ops with
  | [] => Some st
  | op :: ops' => st' ← spend st op; spendAll ops' st'
  end.

(** Modelled from the spec: the non-coinbase inputs of a block, in
    transaction order. *)
Definition blockInputs (blk : Block) : list OutPoint :=
  filter (fun op => isNull op = false) (concat (TxIn <$> Transactions blk)).

(** Modelled from the spec: [InsertBlock] returns the new height. It fails
    when the block's previous hash is not the current tip (except for the
    genesis block on the empty engine), when the block hash already
    exists, or on a double spend; a failure leaves the engine in its
    pre-call state. On success it writes the block row and the height
    index, inserts every transaction with a fresh all-zero bitvector, sets
    the spent bits its inputs consume, and advances the tip. *)
Definition InsertBlock (blk : Block) (db : Db) : Db * (Z + DbErr) :=
  if negb (tipHeight db =? -1) && negb (prevSha blk =? tipSha db)%N then
    (db, inr PrevHashMismatch)
  else if decide (is_Some (blocks db !! blockSha blk)) then
    (db, inr DuplicateSha)
  else
    let h := tipHeight db + 1 in
    let sha := blockSha blk in
    let inserted := foldl (addEntry sha h) (txIndex db) (Transactions blk) in
    match spendAll (blockInputs blk) (inserted, []) with
    | None => (db, inr DoubleSpend)
    | Some (spent, jr) =>
        (mkDb (<[sha := (h, blk)]> (blocks db))
              (<[h := sha]> (heights db))
              spent
              (<[sha := jr]> (journal db))
              sha h,
         inl h)
    end.

(** Modelled from the spec: clearing the bit a journal record names. *)
Definition unspend (m : gmap ShaHash (list TxEntry)) (rec : SpendRecord)
  : gmap ShaHash (list TxEntry) :=
  alter (alter (setBit (spentBit rec) false) (spentPos rec)) (spentTx rec) m.

(** Modelled from the spec: the rollback of the tip block. In reverse
    order it clears the spent bits the block set (by its journal), then
    removes the block's tx entries, then the block row, and decrements the
    tip. *)
Definition undoTip (db : Db) : Db :=
  match blocks db !! tipSha db with
  | None => db
  | Some (h, blk) =>
      let jr := default [] (journal db !! tipSha db) in
      let cleared := foldl unspend (txIndex db) (reverse jr) in
      let removed :=
        filter (fun e => entryBlkSha e ≠ tipSha db) <$> cleared in
      mkDb (delete (tipSha db) (blocks db))
           (delete h (heights db))
           removed
           (delete (tipSha db) (journal db))
           (default 0%N (heights db !! (h - 1)))
           (h - 1)
  end.

Fixpoint undoTips (n : nat) (db : Db) : Db :=
  match n with
  | O => db
  | S n' => undoTips n' (undoTip db)
  end.

(** Modelled from the spec: [DropAfterBlockBySha] rolls the tip back to
    the given block, walking from the tip down to its height; it fails
    when the hash is not in the chain. *)
Definition DropAfterBlockBySha (sha : ShaHash) (db : Db)
  : Db * option DbErr :=
  match blocks db !! sha with
  | None => (db, Some BlockNotFound)
  | Some (h, _) => (undoTips (Z.to_nat (tipHeight db - h)) db, None)
  end.

(** Modelled from the spec: [FetchBlockShaByHeight] returns the hash at
    height [h] and fails with [HeightNotFound] if [h < 0] or [h > tip]. *)
Definition FetchBlockShaByHeight (h : Z) (db : Db) : ShaHash + DbErr :=
  if (h <? 0) || (tipHeight db <? h) then inr HeightNotFound
  else
    match heights db !! h with
    | Some sha => inl sha
    | None => inr HeightNotFound
    end.

(** Modelled from the spec: [ExistsTxSha] is true iff at least one
    committed entry has the txid. *)
Definition ExistsTxSha (sha : ShaHash) (db : Db) : bool :=
  match entriesOf (txIndex db) sha with
  | [] => false
  | _ :: _ => true
  end.

Definition replyOf (sha : ShaHash) (e : TxEntry) : TxListReply :=
  mkReply sha (Some (entryTx e)) (Some (entryBlkSha e)) (entryHeight e)
          (Some (entrySpent e)) None.

Definition replyErr (sha : ShaHash) (err : DbErr) : TxListReply :=
  mkReply sha None None 0 None (Some err).

(** Modelled from the spec: [FetchTxBySha] returns every entry of the
    txid, oldest first, and fails with [TxNotFound] if there is none. *)
Definition FetchTxBySha (sha : ShaHash) (db : Db)
  : list TxListReply + DbErr :=
  match entriesOf (txIndex db) sha with
  | [] => inr TxNotFound
  | l => inl (replyOf sha <$> l)
  end.

(** Modelled from the spec: [FetchTxByShaList], the batched form, returns
    one result per input id in input order, each either an entry or an
    error code. The entry reported for a txid is its most recent one, the
    one the interface test reads from [FetchTxBySha]. *)
Definition FetchTxByShaList (ids : list ShaHash) (db : Db)
  : list TxListReply :=
  (fun sha =>
     match last (entriesOf (txIndex db) sha) with
     | Some e => replyOf sha e
     | None => replyErr sha TxNotFound
     end) <$> ids.

(** Modelled from the spec: the states an engine goes through, that is
    the empty engine, then any sequence of [InsertBlock] and
    [DropAfterBlockBySha] calls. *)
Inductive reachable : Db -> Prop :=
  | reachable_empty : reachable emptyDb
  | reachable_insert (db : Db) (blk : Block) :
      reachable db -> reachable (fst (InsertBlock blk db))
  | reachable_drop (db : Db) (sha : ShaHash) :
      reachable db -> reachable (fst (DropAfterBlockBySha sha db)).

End btcdb.

(** ** Properties of the script builder *)

Module scriptbuilder_proofs.

Import opcode params scriptbuilder.

Example script_scenario_small_ints :
  Script (calls scriptnum.Bytes
            [CallAddInt64 (-1); CallAddInt64 0; CallAddInt64 16;
             CallAddInt64 1000; CallAddInt64 (-255)]
            NewScriptBuilder)
  = ([OP_1NEGATE; OP_0; OP_16; 0x02; 0xe8; 0x03; 0x02; 0xff; 0x80], None).
Proof. reflexivity. Qed.

Example script_scenario_pushdata2 :
  Script (calls scriptnum.Bytes
            [CallAddInt64 (-1); CallAddInt64 0; CallAddInt64 16;
             CallAddData (repeat 0xff 520)]
            NewScriptBuilder)
  = ([OP_1NEGATE; OP_0; OP_16; OP_PUSHDATA2; 0x08; 0x02] ++ repeat 0xff 520,
     None).
Proof. vm_compute. reflexivity. Qed.

(** Case analysis on the boolean tests of the builder's methods. *)
Ltac split_tests :=
  repeat match goal with
  | |- context [if ?c then _ else _] =>
      let E := fresh "E" in destruct c eqn:E
  | H : context [if ?c then _ else _] |- _ =>
      let E := fresh "E" in destruct c eqn:E
  end.

Ltac len_simpl :=
  repeat (rewrite ?len_app, ?len_cons, ?len_nil in *; cbn [ScriptInt ErrInt set_script set_err] in * ).

Section Sticky.

Variable ScriptNum_Bytes : Z -> list Z.

Lemma call_after_error (c : Call) (b : ScriptBuilder) (e : R) :
  ErrInt b = Some e -> call ScriptNum_Bytes c b = b.
Proof.
  intros He.
  destruct c; cbn [call]; unfold AddOp, AddOps, AddData, AddFullData, AddInt64;
    rewrite He; reflexivity.
Qed.

Lemma calls_after_error (cs : list Call) (b : ScriptBuilder) (e : R) :
  ErrInt b = Some e -> calls ScriptNum_Bytes cs b = b.
Proof.
  intros He. induction cs as [|c cs IH]; [reflexivity|].
  unfold calls in *. cbn [fold_left].
  rewrite (call_after_error c b e He). exact IH.
Qed.

Lemma calls_app (cs1 cs2 : list Call) (b : ScriptBuilder) :
  calls ScriptNum_Bytes (cs1 ++ cs2) b
  = calls ScriptNum_Bytes cs2 (calls ScriptNum_Bytes cs1 b).
Proof. unfold calls. apply fold_left_app. Qed.

End Sticky.

Lemma CanonicalDataSize_pos (data : list Z) : 1 <= CanonicalDataSize data.
Proof.
  unfold CanonicalDataSize. destruct data as [|d0 data]; [lia|].
  pose proof (len_nonneg (d0 :: data)). split_tests; lia.
Qed.

(** The internal [addData] appends exactly [CanonicalDataSize data] bytes. *)
Lemma addData_len (data : list Z) (b : ScriptBuilder) :
  len (ScriptInt (addData data b))
  = len (ScriptInt b) + CanonicalDataSize data.
Proof.
  unfold addData, CanonicalDataSize, PutUint16, PutUint32.
  destruct data as [|d0 data]; [len_simpl; lia|].
  split_tests; len_simpl; try lia;
    repeat match goal with
    | H : (_ && _) = _ |- _ =>
        first [apply andb_true_iff in H; destruct H
              | apply andb_false_iff in H; destruct H]
    end; lia.
Qed.

Lemma addData_err (data : list Z) (b : ScriptBuilder) :
  ErrInt (addData data b) = ErrInt b.
Proof.
  unfold addData. destruct data as [|d0 data]; [reflexivity|].
  split_tests; reflexivity.
Qed.

Section Sizes.

Variable ScriptNum_Bytes : Z -> list Z.

(** A size-checked call keeps a script within [MaxScriptSize]. *)
Lemma checked_call_bound (c : Call) (b : ScriptBuilder) :
  checked c = true ->
  len (ScriptInt b) <= MaxScriptSize ->
  len (ScriptInt (call ScriptNum_Bytes c b)) <= MaxScriptSize.
Proof.
  intros Hc Hb.
  destruct c; try discriminate; cbn [call];
    unfold AddOp, AddOps, AddInt64, AddData;
    destruct (ErrInt b); try assumption;
    split_tests; len_simpl; rewrite ?addData_len; lia.
Qed.

(** A size-checked call that would overflow sets the error and leaves the
    script as it is. *)
Lemma checked_call_overflow (c : Call) (b : ScriptBuilder) :
  checked c = true ->
  ErrInt b = None ->
  len (ScriptInt b) + push_size ScriptNum_Bytes c > MaxScriptSize ->
  ScriptInt (call ScriptNum_Bytes c b) = ScriptInt b /\
  exists m, ErrInt (call ScriptNum_Bytes c b)
            = Some (mkR ErrScriptNotCanonical m).
Proof.
  intros Hc He Hover.
  destruct c; try discriminate; cbn [call push_size] in *;
    unfold AddOp, AddOps, AddInt64, AddData; rewrite He;
    try pose proof (CanonicalDataSize_pos (ScriptNum_Bytes val));
    split_tests; cbn [ScriptInt ErrInt set_script set_err];
    try (split; [reflexivity | eexists; reflexivity]);
    exfalso;
    repeat match goal with
    | H : (_ || _) = _ |- _ =>
        first [apply orb_true_iff in H; destruct H
              | apply orb_false_iff in H; destruct H]
    | H : (_ && _) = _ |- _ =>
        first [apply andb_true_iff in H; destruct H
              | apply andb_false_iff in H; destruct H]
    end; lia.
Qed.

End Sizes.

(** *** The encoding chosen by [addData] *)

Lemma le16_bytes (n : Z) :
  0 <= n <= 0xffff -> PutUint16 (to_uint16 n) = le_bytes2 n.
Proof.
  intros Hn. unfold PutUint16, le_bytes2, to_uint16, to_byte.
  rewrite Z.shiftr_div_pow2 by lia. change (2 ^ 8) with 256.
  rewrite (Z.mod_small n 65536) by lia. reflexivity.
Qed.

Lemma le32_bytes (n : Z) :
  0 <= n -> PutUint32 (to_uint32 n) = le_bytes4 n.
Proof.
  intros Hn. unfold PutUint32, le_bytes4, to_uint32, to_byte.
  rewrite !Z.shiftr_div_pow2 by lia.
  change (2 ^ 8) with 256. change (2 ^ 16) with 65536.
  change (2 ^ 24) with 16777216.
  assert (H0 : n mod 4294967296 mod 256 = n mod 256)
    by (Z.div_mod_to_equations; lia).
  assert (H1 : n mod 4294967296 / 256 mod 256 = n / 256 mod 256)
    by (Z.div_mod_to_equations; lia).
  assert (H2 : n mod 4294967296 / 65536 mod 256 = n / 65536 mod 256)
    by (Z.div_mod_to_equations; lia).
  assert (H3 : n mod 4294967296 / 16777216 mod 256 = n / 16777216 mod 256)
    by (Z.div_mod_to_equations; lia).
  rewrite H0, H1, H2, H3. reflexivity.
Qed.

Ltac split_bools :=
  repeat match goal with
  | H : (_ || _) = true |- _ => apply orb_true_iff in H; destruct H
  | H : (_ || _) = false |- _ => apply orb_false_iff in H; destruct H
  | H : (_ && _) = true |- _ => apply andb_true_iff in H; destruct H
  | H : (_ && _) = false |- _ => apply andb_false_iff in H; destruct H
  end.

(** [addData] appends the encoding the specification describes. *)
Lemma addData_canonical (data : list Z) (b : ScriptBuilder) :
  Forall is_byte data ->
  ScriptInt (addData data b) = ScriptInt b ++ canonical_push data.
Proof.
  intros Hbytes. unfold addData, canonical_push, small_int_push.
  destruct data as [|d0 data]; [reflexivity|].
  assert (Hd0 : is_byte d0) by (inversion Hbytes; assumption).
  unfold is_byte in Hd0.
  pose proof (len_nonneg data) as Hlen.
  rewrite len_cons.
  destruct data as [|d1 data].
  - rewrite len_nil. change (1 + 0 =? 1) with true. cbn [andb].
    unfold OP_N, OP_DATA, to_byte, OP_1, OP_1NEGATE, OP_0, OP_DATA_1,
      OP_PUSHDATA1.
    split_tests; split_bools; cbn [ScriptInt set_script];
      try (exfalso; lia); try reflexivity.
    + f_equal. f_equal. rewrite Z.mod_small by lia. lia.
    + rewrite <- app_assoc. reflexivity.
  - set (n := 1 + len (d1 :: data)) in *.
    assert (Hn : 2 <= n)
      by (subst n; rewrite len_cons; pose proof (len_nonneg data); lia).
    replace (n =? 1) with false by (symmetry; apply Z.eqb_neq; lia).
    cbn [andb]. unfold OP_PUSHDATA1, OP_DATA, OP_DATA_1, to_byte.
    split_tests; cbn [ScriptInt set_script]; try (exfalso; lia).
    + rewrite <- app_assoc. cbn [app]. do 2 f_equal.
      rewrite Z.mod_small by lia. lia.
    + rewrite <- app_assoc. cbn [app]. do 3 f_equal.
      apply Z.mod_small. lia.
    + rewrite le16_bytes by lia. rewrite <- !app_assoc. reflexivity.
    + rewrite le32_bytes by lia. rewrite <- !app_assoc. reflexivity.
Qed.

Lemma small_int_push_len (data enc : list Z) :
  small_int_push data = Some enc -> len enc = 1.
Proof.
  unfold small_int_push. destruct data as [|d [|d' data]]; try discriminate.
  - intros [= <-]. reflexivity.
  - split_tests; intros [= <-]; reflexivity.
Qed.

Lemma small_int_push_None_len (data : list Z) :
  small_int_push data = None -> 1 <= len data.
Proof.
  destruct data as [|d data]; [discriminate|]. intros _.
  rewrite len_cons. pose proof (len_nonneg data). lia.
Qed.

(** None of the available encodings is shorter than the chosen one. *)
Lemma canonical_push_shortest (data enc : list Z) :
  In enc (push_encodings data) -> len (canonical_push data) <= len enc.
Proof.
  unfold push_encodings, canonical_push, le_bytes2, le_bytes4.
  pose proof (len_nonneg data) as Hlen.
  rewrite !in_app_iff. intros Hin.
  destruct (small_int_push data) as [enc0|] eqn:Hs.
  - rewrite (small_int_push_len _ _ Hs).
    destruct Hin as [Hin|[Hin|[Hin|[Hin|Hin]]]]; split_tests;
      cbn [In] in Hin; try contradiction; destruct Hin as [<-|[]];
      len_simpl; rewrite ?(small_int_push_len _ _ Hs); lia.
  - apply small_int_push_None_len in Hs.
    destruct Hin as [[]|[Hin|[Hin|[Hin|Hin]]]];
      split_tests; cbn [In] in Hin; try contradiction;
      destruct Hin as [<-|[]]; split_bools; len_simpl; lia.
Qed.

(** The chosen encoding is one of the available ones whenever the length
    fits the four-byte length field. *)
Lemma canonical_push_available (data : list Z) :
  len data <= 0xffffffff -> In (canonical_push data) (push_encodings data).
Proof.
  intros Hmax. unfold canonical_push, push_encodings.
  destruct (small_int_push data) eqn:Hs; [left; reflexivity|].
  apply small_int_push_None_len in Hs. cbn [app].
  replace (1 <=? len data) with true by (symmetry; apply Z.leb_le; lia).
  replace (len data <=? 0xffffffff) with true
    by (symmetry; apply Z.leb_le; lia).
  cbn [andb].
  destruct (len data <=? 75) eqn:E1; [left; reflexivity|]. cbn [app].
  destruct (len data <=? 0xff) eqn:E2; [left; reflexivity|]. cbn [app].
  destruct (len data <=? 0xffff) eqn:E3; left; reflexivity.
Qed.

(** *** The claims about the builder *)

(** C7. Once the error field of a builder is set, [AddOp], [AddOps],
    [AddData], [AddFullData] and [AddInt64] each return the builder as it
    was, script bytes and error alike; so does every chain of such calls,
    and [Script] then returns the script together with that first error. *)
Theorem error_is_sticky
  (ScriptNum_Bytes : Z -> list Z) (b : ScriptBuilder) (e : R) :
  ErrInt b = Some e ->
  (forall op, AddOp op b = b) /\
  (forall opcodes, AddOps opcodes b = b) /\
  (forall data, AddData data b = b) /\
  (forall data, AddFullData data b = b) /\
  (forall val, AddInt64 ScriptNum_Bytes val b = b) /\
  (forall cs, calls ScriptNum_Bytes cs b = b) /\
  (forall cs, Script (calls ScriptNum_Bytes cs b) = (ScriptInt b, Some e)).
Proof.
  intros He.
  pose proof (fun c => call_after_error ScriptNum_Bytes c b e He) as Hc.
  repeat split.
  - intros op. exact (Hc (CallAddOp op)).
  - intros ops. exact (Hc (CallAddOps ops)).
  - intros d. exact (Hc (CallAddData d)).
  - intros d. exact (Hc (CallAddFullData d)).
  - intros v. exact (Hc (CallAddInt64 v)).
  - intros cs. exact (calls_after_error ScriptNum_Bytes cs b e He).
  - intros cs. rewrite (calls_after_error ScriptNum_Bytes cs b e He).
    unfold Script. rewrite He. reflexivity.
Qed.

(** The builder that has just refused a 521-byte element keeps refusing. *)
Lemma error_is_sticky_witness :
  let b := AddData (repeat 0xff 521) (AddOp opcode.OP_1 NewScriptBuilder) in
  ErrInt b = Some (mkR ErrScriptNotCanonical (MsgAddingElement 521)) /\
  Script (calls scriptnum.Bytes
            [CallAddOp opcode.OP_16; CallAddInt64 7; CallAddData [1; 2]] b)
  = ([opcode.OP_1], Some (mkR ErrScriptNotCanonical (MsgAddingElement 521))).
Proof.
  intros b.
  assert (He : ErrInt b
               = Some (mkR ErrScriptNotCanonical (MsgAddingElement 521)))
    by (vm_compute; reflexivity).
  split; [exact He|].
  destruct (error_is_sticky scriptnum.Bytes b _ He)
    as (_ & _ & _ & _ & _ & _ & Hs).
  rewrite Hs. vm_compute. reflexivity.
Defined.

(** C5, as the claim states it, fails: [AddFullData] performs no size
    check, so after 10 000 opcodes it still appends, and the script is
    10 001 bytes long with no error recorded. *)
Lemma AddFullData_exceeds_MaxScriptSize :
  let b := calls scriptnum.Bytes
             [CallAddOps (repeat opcode.OP_1 (Z.to_nat 10000)); CallAddFullData []]
             NewScriptBuilder in
  ErrInt b = None /\
  len (ScriptInt b) = 10001 /\
  MaxScriptSize < len (ScriptInt b).
Proof. vm_compute. repeat split. Qed.

(** C5, amended. From a builder whose script is within [MaxScriptSize],
    every chain of [AddOp], [AddOps], [AddData] and [AddInt64] calls leaves
    the script within [MaxScriptSize]; and any further such call whose push
    would exceed the limit leaves the script bytes as they are and sets the
    error to [ErrScriptNotCanonical]. *)
Theorem checked_calls_respect_MaxScriptSize
  (ScriptNum_Bytes : Z -> list Z) (cs : list Call) (b : ScriptBuilder) :
  forallb checked cs = true ->
  len (ScriptInt b) <= MaxScriptSize ->
  let b' := calls ScriptNum_Bytes cs b in
  len (ScriptInt b') <= MaxScriptSize /\
  (forall c,
      checked c = true ->
      ErrInt b' = None ->
      len (ScriptInt b') + push_size ScriptNum_Bytes c > MaxScriptSize ->
      ScriptInt (call ScriptNum_Bytes c b') = ScriptInt b' /\
      exists m, ErrInt (call ScriptNum_Bytes c b')
                = Some (mkR ErrScriptNotCanonical m)).
Proof.
  intros Hcs Hb b'. split.
  - subst b'. revert b Hb. induction cs as [|c cs IH]; intros b Hb.
    + exact Hb.
    + cbn [forallb] in Hcs. apply andb_true_iff in Hcs as [Hc Hcs].
      unfold calls. cbn [fold_left]. apply (IH Hcs).
      apply checked_call_bound; assumption.
  - intros c Hc He Hover. apply checked_call_overflow; assumption.
Qed.

(** A script filled to the limit by checked calls refuses one more opcode. *)
Lemma checked_calls_respect_MaxScriptSize_witness :
  let b' := calls scriptnum.Bytes
              [CallAddInt64 1000; CallAddOps (repeat opcode.OP_1 (Z.to_nat 9997))]
              NewScriptBuilder in
  len (ScriptInt b') <= MaxScriptSize /\
  ScriptInt (call scriptnum.Bytes (CallAddOp opcode.OP_16) b') = ScriptInt b' /\
  exists m, ErrInt (call scriptnum.Bytes (CallAddOp opcode.OP_16) b')
            = Some (mkR ErrScriptNotCanonical m).
Proof.
  intros b'.
  destruct (checked_calls_respect_MaxScriptSize scriptnum.Bytes
              [CallAddInt64 1000; CallAddOps (repeat opcode.OP_1 (Z.to_nat 9997))]
              NewScriptBuilder)
    as [Hlen Hcall].
  - reflexivity.
  - vm_compute. discriminate.
  - split; [exact Hlen|].
    apply Hcall.
    + reflexivity.
    + vm_compute. reflexivity.
    + vm_compute. reflexivity.
Defined.

(** C6. When [AddData] accepts a byte string on an error-free builder, the
    bytes it appends are the encoding the specification describes
    ([canonical_push]), and no other available encoding of the same push is
    shorter. *)
Theorem AddData_emits_shortest_push (data : list Z) (b : ScriptBuilder) :
  Forall is_byte data ->
  ErrInt b = None ->
  ErrInt (AddData data b) = None ->
  ScriptInt (AddData data b) = ScriptInt b ++ canonical_push data /\
  In (canonical_push data) (push_encodings data) /\
  (forall enc, In enc (push_encodings data) ->
               len (canonical_push data) <= len enc).
Proof.
  intros Hbytes He Hok. unfold AddData in *. rewrite He in *.
  destruct (len (ScriptInt b) + CanonicalDataSize data >? MaxScriptSize);
    [discriminate Hok|].
  destruct (len data >? MaxScriptElementSize) eqn:Helem;
    [discriminate Hok|].
  split; [apply addData_canonical; assumption|].
  split; [|intros enc; apply canonical_push_shortest].
  apply canonical_push_available. unfold MaxScriptElementSize in Helem. lia.
Qed.

Lemma AddData_emits_shortest_push_witness :
  ScriptInt (AddData (repeat 0xab 300) (AddOp opcode.OP_1 NewScriptBuilder))
  = [opcode.OP_1; opcode.OP_PUSHDATA2; 0x2c; 0x01] ++ repeat 0xab 300.
Proof.
  destruct (AddData_emits_shortest_push (repeat 0xab 300)
              (AddOp opcode.OP_1 NewScriptBuilder)) as [Hs _].
  - apply List.Forall_forall. intros x Hx. apply repeat_spec in Hx. subst x.
    unfold is_byte. lia.
  - reflexivity.
  - vm_compute. reflexivity.
  - rewrite Hs. vm_compute. reflexivity.
Defined.

End scriptbuilder_proofs.

(** ** Properties of Go's case mapping on ASCII strings *)

Module gostrings_proofs.

Import gostrings.

Ltac byte_cases c :=
  destruct c as [[] [] [] [] [] [] [] []]; vm_compute;
  try reflexivity; try discriminate; try (intros; discriminate).

Lemma lowerByte_not_upper (c : ascii) : isUpperByte (lowerByte c) = false.
Proof. byte_cases c. Qed.

Lemma lowerByte_ascii (c : ascii) :
  (N_of_ascii (lowerByte c) <? RuneSelf)%N = (N_of_ascii c <? RuneSelf)%N.
Proof. byte_cases c. Qed.

Lemma upperByte_ascii (c : ascii) :
  (N_of_ascii (upperByte c) <? RuneSelf)%N = (N_of_ascii c <? RuneSelf)%N.
Proof. byte_cases c. Qed.

Lemma lowerByte_fixed (c : ascii) : isUpperByte c = false -> lowerByte c = c.
Proof. unfold lowerByte. intros ->. reflexivity. Qed.

Lemma upperByte_fixed (c : ascii) : isLowerByte c = false -> upperByte c = c.
Proof. unfold upperByte. intros ->. reflexivity. Qed.

Lemma lowerByte_upperByte (c : ascii) :
  isUpperByte c = false -> lowerByte (upperByte c) = c.
Proof. byte_cases c. Qed.

Lemma mapBytes_lower_hasUpper (s : string) :
  hasUpper (mapBytes lowerByte s) = false.
Proof.
  induction s as [|c s IH]; [reflexivity|].
  cbn [mapBytes hasUpper]. rewrite lowerByte_not_upper, IH. reflexivity.
Qed.

Lemma mapBytes_lower_isASCII (s : string) :
  isASCII (mapBytes lowerByte s) = isASCII s.
Proof.
  induction s as [|c s IH]; [reflexivity|].
  cbn [mapBytes isASCII]. rewrite lowerByte_ascii, IH. reflexivity.
Qed.

Lemma mapBytes_upper_isASCII (s : string) :
  isASCII (mapBytes upperByte s) = isASCII s.
Proof.
  induction s as [|c s IH]; [reflexivity|].
  cbn [mapBytes isASCII]. rewrite upperByte_ascii, IH. reflexivity.
Qed.

Lemma mapBytes_lower_fixed (s : string) :
  hasUpper s = false -> mapBytes lowerByte s = s.
Proof.
  induction s as [|c s IH]; [reflexivity|].
  cbn [mapBytes hasUpper]. intros H. apply orb_false_iff in H as [Hc Hs].
  rewrite (lowerByte_fixed c Hc), (IH Hs). reflexivity.
Qed.

Lemma mapBytes_upper_fixed (s : string) :
  hasLower s = false -> mapBytes upperByte s = s.
Proof.
  induction s as [|c s IH]; [reflexivity|].
  cbn [mapBytes hasLower]. intros H. apply orb_false_iff in H as [Hc Hs].
  rewrite (upperByte_fixed c Hc), (IH Hs). reflexivity.
Qed.

Lemma mapBytes_lower_upper (s : string) :
  hasUpper s = false -> mapBytes lowerByte (mapBytes upperByte s) = s.
Proof.
  induction s as [|c s IH]; [reflexivity|].
  cbn [mapBytes hasUpper]. intros H. apply orb_false_iff in H as [Hc Hs].
  rewrite (lowerByte_upperByte c Hc), (IH Hs). reflexivity.
Qed.

Lemma isASCII_append (s t : string) :
  isASCII (String.append s t) = isASCII s && isASCII t.
Proof.
  induction s as [|c s IH]; [reflexivity|].
  change (String.append (String c s) t) with (String c (String.append s t)).
  cbn [isASCII]. rewrite IH. apply andb_assoc.
Qed.

Lemma hasUpper_append (s t : string) :
  hasUpper (String.append s t) = hasUpper s || hasUpper t.
Proof.
  induction s as [|c s IH]; [reflexivity|].
  change (String.append (String c s) t) with (String c (String.append s t)).
  cbn [hasUpper]. rewrite IH. apply orb_assoc.
Qed.

Section Unicode.

Variable unicodeLower : string -> string.

(** On an ASCII string both functions work byte by byte. *)
Lemma ToLower_ascii (s : string) :
  isASCII s = true -> ToLower unicodeLower s = mapBytes lowerByte s.
Proof.
  intros Ha. unfold ToLower. rewrite Ha.
  destruct (hasUpper s) eqn:Hu; [reflexivity|].
  symmetry. apply mapBytes_lower_fixed. exact Hu.
Qed.

Lemma ToUpper_ascii (unicodeUpper : string -> string) (s : string) :
  isASCII s = true -> ToUpper unicodeUpper s = mapBytes upperByte s.
Proof.
  intros Ha. unfold ToUpper. rewrite Ha.
  destruct (hasLower s) eqn:Hu; [reflexivity|].
  symmetry. apply mapBytes_upper_fixed. exact Hu.
Qed.

(** An ASCII string without upper-case letters is its own lower-case form,
    and the lower-case form of its upper-case spelling. *)
Lemma ToLower_fixed (s : string) :
  isASCII s = true -> hasUpper s = false -> ToLower unicodeLower s = s.
Proof.
  intros Ha Hu. rewrite (ToLower_ascii s Ha).
  apply mapBytes_lower_fixed. exact Hu.
Qed.

Lemma ToLower_ToUpper (unicodeUpper : string -> string) (s : string) :
  isASCII s = true -> hasUpper s = false ->
  ToLower unicodeLower (ToUpper unicodeUpper s) = s.
Proof.
  intros Ha Hu. rewrite (ToUpper_ascii unicodeUpper s Ha).
  rewrite ToLower_ascii by (rewrite mapBytes_upper_isASCII; exact Ha).
  apply mapBytes_lower_upper. exact Hu.
Qed.

(** [ToLower] is idempotent as soon as the Unicode map yields lower-case
    strings. *)
Lemma ToLower_idempotent :
  (forall s, isASCII s = false ->
             ToLower unicodeLower (unicodeLower s) = unicodeLower s) ->
  forall s, ToLower unicodeLower (ToLower unicodeLower s)
            = ToLower unicodeLower s.
Proof.
  intros Hmap s. destruct (isASCII s) eqn:Ha.
  - rewrite (ToLower_ascii s Ha).
    apply ToLower_fixed.
    + rewrite mapBytes_lower_isASCII. exact Ha.
    + apply mapBytes_lower_hasUpper.
  - unfold ToLower at 2 3. rewrite Ha. apply Hmap. exact Ha.
Qed.

End Unicode.

(** The byte-wise maps, which leave every byte outside ASCII as it is, are
    one instance of the Unicode parameters. *)
Lemma bytewise_lower_is_lower (s : string) :
  isASCII s = false ->
  ToLower (mapBytes lowerByte) (mapBytes lowerByte s) = mapBytes lowerByte s.
Proof.
  intros Ha. unfold ToLower.
  rewrite mapBytes_lower_isASCII, Ha.
  apply mapBytes_lower_fixed, mapBytes_lower_hasUpper.
Qed.

End gostrings_proofs.

(** ** Properties of the chain-parameter registry *)

Module chaincfg_proofs.

Import gostrings chaincfg gostrings_proofs.

(** Sample values for the six network magics, for the statements that
    evaluate a concrete registry: the customary Bitcoin magics and two
    further values for the PKT networks. The general theorems hold for
    every choice of the six constants. *)
Definition sampleMainNet : Z := 0xd9b4bef9.
Definition sampleTestNet : Z := 0xdab5bffa.
Definition sampleTestNet3 : Z := 0x0709110b.
Definition samplePktTestNet : Z := 0x070911fc.
Definition samplePktMainNet : Z := 0x082f00fc.
Definition sampleSimNet : Z := 0x12141c16.

Definition sampleInit : option Registry :=
  init sampleMainNet sampleTestNet sampleTestNet3
       samplePktTestNet samplePktMainNet sampleSimNet.

(** The byte-wise case maps as the sample Unicode maps. *)
Definition bytewiseLower : string -> string := mapBytes lowerByte.
Definition bytewiseUpper : string -> string := mapBytes upperByte.

(** [mockNetParams] with its human-readable part spelled in upper case. *)
Definition upperMockNetParams : Params := {|
  Name := "MOCKNET";
  Net := Net mockNetParams;
  DefaultPort := "";
  Deployments := Deployments mockNetParams;
  Bech32HRPSegwit := "TC";
  PubKeyHashAddrID := 0x9f;
  ScriptHashAddrID := 0xf9;
  PrivateKeyID := 0;
  WitnessPubKeyHashAddrID := 0;
  WitnessScriptHashAddrID := 0;
  HDPrivateKeyID := (0x01, 0x02, 0x03, 0x04);
  HDPublicKeyID := (0x05, 0x06, 0x07, 0x08);
  HDCoinType := 0
|}.

(** *** [Register] case by case *)

Lemma Register_registered (p : Params) (r : Registry) :
  Net p ∈ registeredNets r -> Register p r = (r, Some ErrDuplicateNet).
Proof. intros Hin. unfold Register. rewrite decide_True by exact Hin. done. Qed.

Lemma Register_fresh (p : Params) (r : Registry) :
  (Net p ∉ registeredNets r) ->
  Register p r =
    (mkRegistry
       ({[Net p]} ∪ registeredNets r)
       ({[PubKeyHashAddrID p]} ∪ pubKeyHashAddrIDs r)
       ({[ScriptHashAddrID p]} ∪ scriptHashAddrIDs r)
       ({[String.append (Bech32HRPSegwit p) "1"]} ∪ bech32SegwitPrefixes r)
       (<[HDPrivateKeyID p := slice4 (HDPublicKeyID p)]>
          (hdPrivToPubKeyIDs r)),
     None).
Proof. intros Hin. unfold Register. rewrite decide_False by exact Hin. done. Qed.

Lemma Register_success_inv (p : Params) (r r' : Registry) :
  Register p r = (r', None) ->
  (Net p ∉ registeredNets r) /\
  registeredNets r' = {[Net p]} ∪ registeredNets r /\
  pubKeyHashAddrIDs r' = {[PubKeyHashAddrID p]} ∪ pubKeyHashAddrIDs r /\
  scriptHashAddrIDs r' = {[ScriptHashAddrID p]} ∪ scriptHashAddrIDs r /\
  bech32SegwitPrefixes r'
    = {[String.append (Bech32HRPSegwit p) "1"]} ∪ bech32SegwitPrefixes r /\
  hdPrivToPubKeyIDs r'
    = <[HDPrivateKeyID p := slice4 (HDPublicKeyID p)]> (hdPrivToPubKeyIDs r).
Proof.
  unfold Register. destruct (decide (Net p ∈ registeredNets r)) as [Hin|Hin].
  - discriminate.
  - intros [= <-]. cbn. done.
Qed.

Lemma Register_failure_inv (p : Params) (r r' : Registry) (e : Err) :
  Register p r = (r', Some e) ->
  e = ErrDuplicateNet /\ r' = r /\ Net p ∈ registeredNets r.
Proof.
  unfold Register. destruct (decide (Net p ∈ registeredNets r)) as [Hin|Hin].
  - intros [= <- <-]. done.
  - discriminate.
Qed.

Lemma mustRegister_nets (p : Params) (r r' : Registry) :
  mustRegister p r = Some r' ->
  Net p ∈ registeredNets r' /\ registeredNets r ⊆ registeredNets r'.
Proof.
  unfold mustRegister. destruct (Register p r) as [r1 [e|]] eqn:HR;
    [discriminate|].
  intros [= <-]. apply Register_success_inv in HR as (_ & -> & _).
  set_solver.
Qed.

Section Networks.

Variables MainNet TestNet TestNet3 PktTestNet PktMainNet SimNet : Z.

Local Abbreviation init' :=
  (init MainNet TestNet TestNet3 PktTestNet PktMainNet SimNet).
Local Abbreviation defaultNets' :=
  (defaultNets MainNet TestNet TestNet3 PktTestNet PktMainNet SimNet).

(** After [init], the magic of each built-in network is registered. *)
Lemma init_registers_defaults (r : Registry) (p : Params) :
  init' = Some r -> In p defaultNets' -> Net p ∈ registeredNets r.
Proof.
  unfold init. intros Hinit Hp.
  destruct (mustRegister (MainNetParams MainNet) emptyRegistry)
    as [r1|] eqn:H1; [|discriminate].
  cbn [mbind option_bind] in Hinit.
  destruct (mustRegister (TestNet3Params TestNet3) r1)
    as [r2|] eqn:H2; [|discriminate].
  cbn [mbind option_bind] in Hinit.
  destruct (mustRegister (PktTestNetParams PktTestNet) r2)
    as [r3|] eqn:H3; [|discriminate].
  cbn [mbind option_bind] in Hinit.
  destruct (mustRegister (PktMainNetParams PktMainNet) r3)
    as [r4|] eqn:H4; [|discriminate].
  cbn [mbind option_bind] in Hinit.
  destruct (mustRegister (RegressionNetParams TestNet) r4)
    as [r5|] eqn:H5; [|discriminate].
  cbn [mbind option_bind] in Hinit.
  apply mustRegister_nets in H1 as [I1 S1], H2 as [I2 S2], H3 as [I3 S3],
    H4 as [I4 S4], H5 as [I5 S5], Hinit as [I6 S6].
  unfold defaultNets in Hp. cbn [In] in Hp.
  destruct Hp as [<-|[<-|[<-|[<-|[<-|[<-|[]]]]]]]; set_solver.
Qed.

(** C3. [Register] on a network magic that is already registered returns
    [ErrDuplicateNet] and leaves the registry as it is; this holds for each
    of the six built-in networks once [init] has run, and for every second
    call with the magic of a successful first call. *)
Theorem Register_duplicate_net :
  (forall (p : Params) (r : Registry),
      Net p ∈ registeredNets r ->
      Register p r = (r, Some ErrDuplicateNet)) /\
  (forall (r : Registry) (p : Params),
      init' = Some r -> In p defaultNets' ->
      Register p r = (r, Some ErrDuplicateNet)) /\
  (forall (p q : Params) (r r' : Registry),
      Register p r = (r', None) -> Net q = Net p ->
      Register q r' = (r', Some ErrDuplicateNet)).
Proof.
  split; [|split].
  - exact Register_registered.
  - intros r p Hinit Hp. apply Register_registered.
    exact (init_registers_defaults r p Hinit Hp).
  - intros p q r r' HR Hq. apply Register_registered.
    apply Register_success_inv in HR as (_ & -> & _).
    rewrite Hq. set_solver.
Qed.

(** C9, amended. Each of the six built-in networks carries the three
    deployments, with bit 28 for TestDummy and bit 0 for CSV; Segwit has
    bit 1 in mainnet, regtest, testnet3 and simnet. In the two PKT networks
    the CSV and Segwit deployments have [StartTime] and [ExpireTime] equal
    to [math.MaxInt64] and a [BitNumber] left at zero. *)
Theorem builtin_deployments :
  (forall p, In p defaultNets' ->
     exists dummy csv segwit,
       Deployments p !! DeploymentTestDummy = Some dummy /\
       Deployments p !! DeploymentCSV = Some csv /\
       Deployments p !! DeploymentSegwit = Some segwit /\
       length (Deployments p) = DefinedDeployments /\
       BitNumber dummy = 28 /\ BitNumber csv = 0) /\
  (forall p,
     In p [MainNetParams MainNet; RegressionNetParams TestNet;
           TestNet3Params TestNet3; SimNetParams SimNet] ->
     BitNumber <$> Deployments p !! DeploymentSegwit = Some 1) /\
  (forall p,
     In p [PktTestNetParams PktTestNet; PktMainNetParams PktMainNet] ->
     Deployments p !! DeploymentCSV
       = Some (mkDeployment 0 MaxInt64 MaxInt64) /\
     Deployments p !! DeploymentSegwit
       = Some (mkDeployment 0 MaxInt64 MaxInt64)).
Proof.
  split; [|split].
  - intros p Hp. unfold defaultNets in Hp. cbn [In] in Hp.
    destruct Hp as [<-|[<-|[<-|[<-|[<-|[<-|[]]]]]]];
      (eexists _, _, _; repeat split; reflexivity).
  - intros p Hp. cbn [In] in Hp.
    destruct Hp as [<-|[<-|[<-|[<-|[]]]]]; reflexivity.
  - intros p Hp. cbn [In] in Hp.
    destruct Hp as [<-|[<-|[]]]; split; reflexivity.
Qed.

End Networks.

(** C9, as the claim states it, fails: the Segwit deployment of the PKT
    main network has bit number 0, not 1 (and so has the PKT test
    network's). *)
Lemma pkt_segwit_bit_is_zero :
  BitNumber <$> Deployments (PktMainNetParams samplePktMainNet)
                  !! DeploymentSegwit = Some 0 /\
  BitNumber <$> Deployments (PktTestNetParams samplePktTestNet)
                  !! DeploymentSegwit = Some 0.
Proof. split; reflexivity. Qed.

(** C10. When [Register] returns [ErrDuplicateNet] the registry is the one
    it was called on: the five tables are unchanged and every membership
    and HD-key query answers as before. *)
Theorem Register_failure_keeps_registry
  (unicodeLower : string -> string) (p : Params) (r r' : Registry) :
  Register p r = (r', Some ErrDuplicateNet) ->
  r' = r /\
  registeredNets r' = registeredNets r /\
  (forall id, IsPubKeyHashAddrID id r' = IsPubKeyHashAddrID id r) /\
  (forall id, IsScriptHashAddrID id r' = IsScriptHashAddrID id r) /\
  (forall s, IsBech32SegwitPrefix unicodeLower s r'
             = IsBech32SegwitPrefix unicodeLower s r) /\
  (forall id, HDPrivateKeyToPublicKeyID id r'
              = HDPrivateKeyToPublicKeyID id r).
Proof.
  intros HR. apply Register_failure_inv in HR as (_ & -> & _).
  repeat split; reflexivity.
Qed.

(** The registry the sample [init] leaves. *)
Definition sampleRegistry : Registry := default emptyRegistry sampleInit.

Lemma sampleInit_succeeds : sampleInit = Some sampleRegistry.
Proof. vm_compute. reflexivity. Qed.

Lemma Register_duplicate_net_witness :
  Register (PktMainNetParams samplePktMainNet) sampleRegistry
  = (sampleRegistry, Some ErrDuplicateNet).
Proof.
  destruct (Register_duplicate_net sampleMainNet sampleTestNet sampleTestNet3
              samplePktTestNet samplePktMainNet sampleSimNet)
    as (_ & Hdefault & _).
  apply Hdefault; [exact sampleInit_succeeds|].
  unfold defaultNets. cbn [In]. tauto.
Defined.

Lemma Register_failure_keeps_registry_witness :
  fst (Register (MainNetParams sampleMainNet) sampleRegistry)
  = sampleRegistry.
Proof.
  destruct (Register_failure_keeps_registry bytewiseLower
              (MainNetParams sampleMainNet) sampleRegistry
              (fst (Register (MainNetParams sampleMainNet) sampleRegistry)))
    as [Heq _].
  - vm_compute. reflexivity.
  - exact Heq.
Defined.

Section Lookups.

Variable unicodeLower : string -> string.

Lemma IsBech32SegwitPrefix_registered (p : Params) (r r' : Registry)
  (s : string) :
  Register p r = (r', None) ->
  ToLower unicodeLower s = String.append (Bech32HRPSegwit p) "1" ->
  IsBech32SegwitPrefix unicodeLower s r' = true.
Proof.
  intros HR Hs. apply Register_success_inv in HR as (_ & _ & _ & _ & Hb & _).
  unfold IsBech32SegwitPrefix. apply bool_decide_eq_true.
  rewrite Hs. apply (elem_of_weaken _ {[String.append (Bech32HRPSegwit p) "1"]});
    [apply elem_of_singleton; reflexivity | rewrite Hb; apply union_subseteq_l].
Qed.

(** After a successful [Register p] the two address bytes of [p] are
    known, the HD private id of [p] maps to the four bytes of its public
    id, and the prefix [Register] stored is in the table. The lookup of
    that prefix succeeds when the prefix is its own lower-case form; the
    other three answers need no such condition. *)
Lemma Register_success_lookups (p : Params) (r r' : Registry) :
  Register p r = (r', None) ->
  IsPubKeyHashAddrID (PubKeyHashAddrID p) r' = true /\
  IsScriptHashAddrID (ScriptHashAddrID p) r' = true /\
  HDPrivateKeyToPublicKeyID (slice4 (HDPrivateKeyID p)) r'
    = inl (slice4 (HDPublicKeyID p)) /\
  String.append (Bech32HRPSegwit p) "1" ∈ bech32SegwitPrefixes r' /\
  (ToLower unicodeLower (String.append (Bech32HRPSegwit p) "1")
     = String.append (Bech32HRPSegwit p) "1" ->
   IsBech32SegwitPrefix unicodeLower
     (String.append (Bech32HRPSegwit p) "1") r' = true).
Proof.
  intros HR.
  pose proof (IsBech32SegwitPrefix_registered p r r'
                (String.append (Bech32HRPSegwit p) "1") HR) as Hb.
  apply Register_success_inv in HR as (_ & _ & Hpk & Hsh & Hbp & Hhd).
  split; [|split; [|split; [|split]]].
  - unfold IsPubKeyHashAddrID. apply bool_decide_eq_true.
    rewrite Hpk. apply elem_of_union_l, elem_of_singleton. reflexivity.
  - unfold IsScriptHashAddrID. apply bool_decide_eq_true.
    rewrite Hsh. apply elem_of_union_l, elem_of_singleton. reflexivity.
  - unfold HDPrivateKeyToPublicKeyID.
    destruct (HDPrivateKeyID p) as [[[k0 k1] k2] k3] eqn:Hk.
    cbn [slice4]. rewrite Hhd, lookup_insert_eq. reflexivity.
  - rewrite Hbp. apply elem_of_union_l, elem_of_singleton. reflexivity.
  - exact Hb.
Qed.

(** [IsBech32SegwitPrefix] answers on a string as on its lower-case form
    (given that the Unicode map yields lower-case strings). After a
    network is registered whose human-readable part is ASCII without
    upper-case letters, that part followed by ["1"], its upper-case
    spelling, and every string with that lower-case form are accepted. *)
Lemma IsBech32SegwitPrefix_ignores_case
  (unicodeUpper : string -> string) :
  (forall s, isASCII s = false ->
             ToLower unicodeLower (unicodeLower s) = unicodeLower s) ->
  (forall s r,
      IsBech32SegwitPrefix unicodeLower s r
      = IsBech32SegwitPrefix unicodeLower (ToLower unicodeLower s) r) /\
  (forall p r r',
      Register p r = (r', None) ->
      isASCII (Bech32HRPSegwit p) = true ->
      hasUpper (Bech32HRPSegwit p) = false ->
      let prefix := String.append (Bech32HRPSegwit p) "1" in
      IsBech32SegwitPrefix unicodeLower prefix r' = true /\
      IsBech32SegwitPrefix unicodeLower (ToUpper unicodeUpper prefix) r'
        = true /\
      (forall s, ToLower unicodeLower s = prefix ->
                 IsBech32SegwitPrefix unicodeLower s r' = true)).
Proof.
  intros Hmap. split.
  - intros s r. unfold IsBech32SegwitPrefix.
    rewrite (ToLower_idempotent unicodeLower Hmap). reflexivity.
  - intros p r r' HR Ha Hu prefix.
    assert (Hpa : isASCII prefix = true)
      by (subst prefix; rewrite isASCII_append, Ha; reflexivity).
    assert (Hpu : hasUpper prefix = false)
      by (subst prefix; rewrite hasUpper_append, Hu; reflexivity).
    repeat split.
    + apply (IsBech32SegwitPrefix_registered p r r' _ HR).
      apply ToLower_fixed; assumption.
    + apply (IsBech32SegwitPrefix_registered p r r' _ HR).
      apply ToLower_ToUpper; assumption.
    + intros s Hs. exact (IsBech32SegwitPrefix_registered p r r' _ HR Hs).
Qed.

End Lookups.

(** C4. On a network whose human-readable part is ["TC"], [Register]
    succeeds; the two address bytes are known and the HD private id maps to
    the public id, as the claim says; the prefix ["TC1"] is stored in the
    table as it is, yet [IsBech32SegwitPrefix] on that very prefix answers
    [false]: the lookup lower-cases its argument to ["tc1"], a key
    [Register] never wrote. *)
Theorem Register_upper_case_hrp_unknown :
  let '(r', err) := Register upperMockNetParams sampleRegistry in
  err = None /\
  String.append (Bech32HRPSegwit upperMockNetParams) "1" = "TC1"%string /\
  "TC1"%string ∈ bech32SegwitPrefixes r' /\
  IsPubKeyHashAddrID (PubKeyHashAddrID upperMockNetParams) r' = true /\
  IsScriptHashAddrID (ScriptHashAddrID upperMockNetParams) r' = true /\
  HDPrivateKeyToPublicKeyID
    (slice4 (HDPrivateKeyID upperMockNetParams)) r'
    = inl [0x05; 0x06; 0x07; 0x08] /\
  IsBech32SegwitPrefix bytewiseLower
    (String.append (Bech32HRPSegwit upperMockNetParams) "1") r' = false.
Proof.
  destruct (Register upperMockNetParams sampleRegistry) as [r' err] eqn:HR.
  assert (He : err = None).
  { change err with (snd (r', err)). rewrite <- HR. vm_compute. reflexivity. }
  subst err.
  assert (Hf : IsBech32SegwitPrefix bytewiseLower "TC1" r' = false).
  { change r' with (fst (r', @None Err)). rewrite <- HR.
    vm_compute. reflexivity. }
  destruct (Register_success_lookups bytewiseLower _ _ _ HR)
    as (Hpk & Hsh & Hhd & Hin & _).
  repeat split; assumption.
Qed.

(** C8. On the same network: after [Register] succeeds with the
    human-readable part ["TC"], neither its lower-case spelling followed by
    ["1"] nor its upper-case spelling followed by ["1"] is accepted,
    although the lookup lower-cases its argument to match without regard
    to case: [Register] stored the prefix without lower-casing it. *)
Theorem upper_case_hrp_spellings_rejected :
  let '(r', err) := Register upperMockNetParams sampleRegistry in
  let h := Bech32HRPSegwit upperMockNetParams in
  err = None /\
  String.append (ToLower bytewiseLower h) "1" = "tc1"%string /\
  String.append (ToUpper bytewiseUpper h) "1" = "TC1"%string /\
  "TC1"%string ∈ bech32SegwitPrefixes r' /\
  IsBech32SegwitPrefix bytewiseLower
    (String.append (ToLower bytewiseLower h) "1") r' = false /\
  IsBech32SegwitPrefix bytewiseLower
    (String.append (ToUpper bytewiseUpper h) "1") r' = false.
Proof.
  destruct (Register upperMockNetParams sampleRegistry) as [r' err] eqn:HR.
  assert (He : err = None).
  { change err with (snd (r', err)). rewrite <- HR. vm_compute. reflexivity. }
  subst err. cbv zeta.
  assert (Hlo : IsBech32SegwitPrefix bytewiseLower "tc1" r' = false).
  { change r' with (fst (r', @None Err)). rewrite <- HR.
    vm_compute. reflexivity. }
  assert (Hup : IsBech32SegwitPrefix bytewiseLower "TC1" r' = false).
  { change r' with (fst (r', @None Err)). rewrite <- HR.
    vm_compute. reflexivity. }
  apply Register_success_inv in HR as (_ & _ & _ & _ & Hbp & _).
  repeat split; try assumption.
  rewrite Hbp. apply elem_of_union_l, elem_of_singleton. reflexivity.
Qed.

End chaincfg_proofs.

(** ** Properties of the block and transaction index *)

Module btcdb_proofs.

Import btcdb.

(** *** A small chain for the concrete scenarios *)

Definition coinbaseIn : OutPoint := mkOutPoint 0%N 4294967295%N.

Definition tx0 : MsgTx := mkTx 100%N [coinbaseIn] 2.
Definition tx1 : MsgTx := mkTx 101%N [coinbaseIn] 1.
Definition tx2 : MsgTx := mkTx 102%N [coinbaseIn] 1.
Definition tx2spend : MsgTx := mkTx 112%N [mkOutPoint 100%N 1%N] 3.

Definition block0 : Block := mkBlock 10%N 0%N [tx0].
Definition block1 : Block := mkBlock 11%N 10%N [tx1].
Definition block2 : Block := mkBlock 12%N 11%N [tx2; tx2spend].

Definition chain3 : Db :=
  fst (InsertBlock block2 (fst (InsertBlock block1
        (fst (InsertBlock block0 emptyDb))))).

Example chain3_tip : (tipSha chain3, tipHeight chain3) = (12%N, 2).
Proof. vm_compute. reflexivity. Qed.

Example chain3_replies :
  FetchTxByShaList [112%N; 999%N; 100%N] chain3
  = [ mkReply 112%N (Some tx2spend) (Some 12%N) 2
        (Some [false; false; false]) None;
      mkReply 999%N None None 0 None (Some TxNotFound);
      mkReply 100%N (Some tx0) (Some 10%N) 0 (Some [false; true]) None ].
Proof. vm_compute. reflexivity. Qed.

Example chain3_double_spend :
  snd (InsertBlock (mkBlock 13%N 12%N [mkTx 113%N [mkOutPoint 100%N 1%N] 1])
         chain3)
  = inr DoubleSpend.
Proof. vm_compute. reflexivity. Qed.

Example chain3_drop :
  let db := fst (DropAfterBlockBySha 10%N chain3) in
  FetchBlockShaByHeight 0 db = inl 10%N /\
  FetchBlockShaByHeight 1 db = inr HeightNotFound /\
  FetchTxByShaList [100%N; 112%N] db
  = [ mkReply 100%N (Some tx0) (Some 10%N) 0 (Some [false; false]) None;
      mkReply 112%N None None 0 None (Some TxNotFound) ].
Proof. vm_compute. repeat split. Qed.

(** *** The tx index only holds entries of committed blocks *)

(** An entry filed under [sha] is sound for a blocks table: it carries a
    transaction with that txid, the block it names is committed at the
    height it names and contains the transaction, and its bitvector has
    one bit per output. *)
Definition entry_ok (blks : gmap ShaHash (Z * Block)) (sha : ShaHash)
  (e : TxEntry) : Prop :=
  TxSha (entryTx e) = sha /\
  (exists blk, blks !! entryBlkSha e = Some (entryHeight e, blk) /\
               entryTx e ∈ Transactions blk) /\
  length (entrySpent e) = NumTxOut (entryTx e).

Definition index_ok (blks : gmap ShaHash (Z * Block))
  (m : gmap ShaHash (list TxEntry)) : Prop :=
  forall sha l, m !! sha = Some l -> Forall (entry_ok blks sha) l.

Lemma entriesOf_ok blks (m : gmap ShaHash (list TxEntry)) (sha : ShaHash) :
  index_ok blks m -> Forall (entry_ok blks sha) (entriesOf m sha).
Proof.
  intros Hm. unfold entriesOf.
  destruct (m !! sha) as [l|] eqn:E; cbn; [exact (Hm sha l E) | constructor].
Qed.

Lemma setBit_ok blks (sha : ShaHash) (bit : nat) (v : bool) (e : TxEntry) :
  entry_ok blks sha e -> entry_ok blks sha (setBit bit v e).
Proof.
  intros (Hsha & Hblk & Hlen). split; [|split]; cbn; try assumption.
  rewrite length_insert. exact Hlen.
Qed.

Lemma index_ok_insert blks (m : gmap ShaHash (list TxEntry))
  (sha : ShaHash) (l : list TxEntry) :
  index_ok blks m -> Forall (entry_ok blks sha) l ->
  index_ok blks (<[sha := l]> m).
Proof.
  intros Hm Hl s k. rewrite lookup_insert_Some.
  intros [[<- <-]|[_ Hk]]; [exact Hl | exact (Hm s k Hk)].
Qed.

Lemma foldl_addEntry_ok blks (sha : ShaHash) (h : Z) (txs : list MsgTx)
  (m : gmap ShaHash (list TxEntry)) :
  index_ok blks m ->
  Forall (fun tx => entry_ok blks (TxSha tx) (freshEntry sha h tx)) txs ->
  index_ok blks (foldl (addEntry sha h) m txs).
Proof.
  intros Hm Htxs. revert m Hm.
  induction Htxs as [|tx txs Htx _ IH]; intros m Hm; [exact Hm|].
  cbn [foldl]. apply IH. unfold addEntry. apply index_ok_insert; [exact Hm|].
  apply Forall_app. split; [apply entriesOf_ok; exact Hm|].
  constructor; [exact Htx | constructor].
Qed.

Lemma spend_ok blks st op st' :
  index_ok blks st.1 -> spend st op = Some st' -> index_ok blks st'.1.
Proof.
  destruct st as [m jr]. unfold spend. cbn [fst].
  destruct (findLast _ _) as [pos|]; cbn; [|discriminate].
  intros Hm [= <-]. cbn [fst]. apply index_ok_insert; [exact Hm|].
  apply Forall_alter; [apply entriesOf_ok; exact Hm|].
  intros e _. apply setBit_ok.
Qed.

Lemma spendAll_ok blks ops st st' :
  index_ok blks st.1 -> spendAll ops st = Some st' -> index_ok blks st'.1.
Proof.
  revert st. induction ops as [|op ops IH]; intros st Hm; cbn [spendAll].
  - intros [= <-]. exact Hm.
  - destruct (spend st op) as [st1|] eqn:Hs; cbn; [|discriminate].
    apply IH. exact (spend_ok blks st op st1 Hm Hs).
Qed.

Lemma unspend_ok blks (m : gmap ShaHash (list TxEntry)) (rec : SpendRecord) :
  index_ok blks m -> index_ok blks (unspend m rec).
Proof.
  intros Hm s l. unfold unspend. rewrite lookup_alter.
  case_decide as Heq; [subst s | exact (Hm s l)].
  destruct (m !! spentTx rec) as [k|] eqn:E; cbn; [|discriminate].
  intros [= <-]. apply Forall_alter; [exact (Hm _ _ E)|].
  intros e _. apply setBit_ok.
Qed.

Lemma foldl_unspend_ok blks (jr : list SpendRecord)
  (m : gmap ShaHash (list TxEntry)) :
  index_ok blks m -> index_ok blks (foldl unspend m jr).
Proof.
  revert m. induction jr as [|rec jr IH]; intros m Hm; [exact Hm|].
  cbn [foldl]. apply IH, unspend_ok, Hm.
Qed.

Lemma entry_ok_new_block (blks : gmap ShaHash (Z * Block)) (sha0 : ShaHash)
  (row : Z * Block) (sha : ShaHash) (e : TxEntry) :
  blks !! sha0 = None -> entry_ok blks sha e ->
  entry_ok (<[sha0 := row]> blks) sha e.
Proof.
  intros Hnew (Hsha & (blk & Hblk & Hin) & Hlen).
  split; [exact Hsha|]. split; [|exact Hlen].
  exists blk. split; [|exact Hin].
  rewrite lookup_insert_ne; [exact Hblk|]. intros ->. congruence.
Qed.

Lemma entry_ok_other_block (blks : gmap ShaHash (Z * Block))
  (sha0 sha : ShaHash) (e : TxEntry) :
  entryBlkSha e ≠ sha0 -> entry_ok blks sha e ->
  entry_ok (delete sha0 blks) sha e.
Proof.
  intros Hne (Hsha & (blk & Hblk & Hin) & Hlen).
  split; [exact Hsha|]. split; [|exact Hlen].
  exists blk. split; [|exact Hin].
  rewrite lookup_delete_ne; [exact Hblk|]. congruence.
Qed.

(** *** The invariant of the engine *)

Record consistent (db : Db) : Prop := mkConsistent {
  tip_lower : -1 <= tipHeight db;
  heights_range :
    forall h, is_Some (heights db !! h) <-> 0 <= h <= tipHeight db;
  heights_blocks :
    forall h sha, heights db !! h = Some sha ->
      exists blk, blocks db !! sha = Some (h, blk) /\ blockSha blk = sha;
  blocks_heights :
    forall sha h blk, blocks db !! sha = Some (h, blk) ->
      heights db !! h = Some sha;
  tip_indexed :
    0 <= tipHeight db -> heights db !! tipHeight db = Some (tipSha db);
  index_entries : index_ok (blocks db) (txIndex db)
}.

Lemma consistent_empty : consistent emptyDb.
Proof.
  split; cbn.
  - lia.
  - intros h. rewrite lookup_empty. split; [intros [? [=]] | lia].
  - intros h sha. rewrite lookup_empty. discriminate.
  - intros sha h blk. rewrite lookup_empty. discriminate.
  - lia.
  - intros sha l. rewrite lookup_empty. discriminate.
Qed.

Lemma consistent_InsertBlock (blk : Block) (db : Db) :
  consistent db -> consistent (fst (InsertBlock blk db)).
Proof.
  intros Hc. unfold InsertBlock.
  destruct (negb (tipHeight db =? -1) && negb (prevSha blk =? tipSha db)%N);
    [exact Hc|].
  destruct (decide (is_Some (blocks db !! blockSha blk))) as [Hdup|Hnew];
    [exact Hc|].
  apply eq_None_not_Some in Hnew.
  destruct (spendAll _ _) as [[spent jr]|] eqn:Hspend; [|exact Hc].
  destruct Hc as [Hlow Hrange Hhb Hbh Htip Hidx]. cbn [fst].
  split; cbn.
  - lia.
  - intros h'. rewrite lookup_insert_is_Some'. rewrite Hrange. lia.
  - intros h' sha'. rewrite lookup_insert_Some.
    intros [[Hh' Hsha']|[Hne Hold]].
    + subst h' sha'. exists blk. rewrite lookup_insert_eq. done.
    + destruct (Hhb h' sha' Hold) as (blk' & Hrow & Hsha').
      exists blk'. split; [|exact Hsha'].
      rewrite lookup_insert_ne; [exact Hrow|]. intros Heq.
      rewrite <- Heq in Hrow. congruence.
  - intros sha' h' blk'. rewrite lookup_insert_Some.
    intros [[Hsha' Hrow]|[Hne Hold]].
    + injection Hrow as Hh' Hblk'. subst sha' h' blk'.
      apply lookup_insert_eq.
    + pose proof (Hbh _ _ _ Hold) as Hh'.
      rewrite lookup_insert_ne; [exact Hh'|].
      intros Heq. assert (is_Some (heights db !! h')) as Hs by eauto.
      apply Hrange in Hs. lia.
  - intros _. apply lookup_insert_eq.
  - apply (spendAll_ok
             (<[blockSha blk := (tipHeight db + 1, blk)]> (blocks db)) _ _ _)
      in Hspend; [exact Hspend|]. cbn [fst].
    apply foldl_addEntry_ok.
    + intros s l Hl. eapply Forall_impl; [exact (Hidx s l Hl)|].
      intros e. apply entry_ok_new_block. exact Hnew.
    + apply Forall_forall. intros tx Htx.
      split; [reflexivity|]. split; [|cbn; apply length_replicate].
      exists blk. split; [|exact Htx]. cbn. apply lookup_insert_eq.
Qed.

Lemma consistent_undoTip (db : Db) : consistent db -> consistent (undoTip db).
Proof.
  intros Hc. unfold undoTip.
  destruct (blocks db !! tipSha db) as [[h blk]|] eqn:Hrow; [|exact Hc].
  destruct Hc as [Hlow Hrange Hhb Hbh Htip Hidx].
  assert (Hh : 0 <= h <= tipHeight db).
  { apply Hrange. exists (tipSha db). exact (Hbh _ _ _ Hrow). }
  assert (Heq : h = tipHeight db).
  { assert (Ht : 0 <= tipHeight db) by lia.
    destruct (Hhb _ _ (Htip Ht)) as (blk' & Hrow' & _). congruence. }
  split; cbn.
  - lia.
  - intros h'. rewrite lookup_delete_is_Some, Hrange. lia.
  - intros h' sha'. rewrite lookup_delete_Some. intros [Hne Hold].
    destruct (Hhb h' sha' Hold) as (blk' & Hrow' & Hsha').
    exists blk'. split; [|exact Hsha'].
    rewrite lookup_delete_ne; [exact Hrow'|]. intros <-. congruence.
  - intros sha' h' blk'. rewrite lookup_delete_Some. intros [Hne Hold].
    rewrite lookup_delete_ne; [exact (Hbh _ _ _ Hold)|].
    intros <-. apply Hbh in Hold.
    pose proof (Hbh _ _ _ Hrow). congruence.
  - intros Hpos. rewrite lookup_delete_ne by lia.
    destruct (proj2 (Hrange (h - 1))) as [s Hs]; [lia|].
    rewrite Hs. reflexivity.
  - intros s l. rewrite lookup_fmap.
    destruct (foldl unspend (txIndex db) (reverse _) !! s) as [k|] eqn:Hk;
      cbn; [|discriminate].
    intros [= <-]. apply Forall_forall. intros e He.
    apply list_elem_of_filter in He as [Hne He].
    apply entry_ok_other_block; [exact Hne|].
    pose proof (foldl_unspend_ok (blocks db) _ _ Hidx s k Hk) as Hall.
    rewrite Forall_forall in Hall. exact (Hall e He).
Qed.

Lemma consistent_undoTips (n : nat) (db : Db) :
  consistent db -> consistent (undoTips n db).
Proof.
  revert db. induction n as [|n IH]; intros db Hc; [exact Hc|].
  cbn [undoTips]. apply IH, consistent_undoTip, Hc.
Qed.

Lemma consistent_DropAfterBlockBySha (sha : ShaHash) (db : Db) :
  consistent db -> consistent (fst (DropAfterBlockBySha sha db)).
Proof.
  intros Hc. unfold DropAfterBlockBySha.
  destruct (blocks db !! sha) as [[h blk]|]; [|exact Hc].
  cbn [fst]. apply consistent_undoTips, Hc.
Qed.

Lemma reachable_consistent (db : Db) : reachable db -> consistent db.
Proof.
  induction 1 as [|db blk _ IH|db sha _ IH].
  - exact consistent_empty.
  - exact (consistent_InsertBlock blk db IH).
  - exact (consistent_DropAfterBlockBySha sha db IH).
Qed.

Lemma chain3_reachable : reachable chain3.
Proof.
  unfold chain3. apply reachable_insert, reachable_insert, reachable_insert.
  exact reachable_empty.
Qed.

(** *** The claims about the queries *)

(** C1. In every state of the engine, with tip height [T]:
    [FetchBlockShaByHeight h] returns the hash of the block committed at
    height [h] whenever [0 <= h <= T], and fails with [HeightNotFound] for
    every [h < 0] and every [h > T], in particular for [-1], [T+1] and
    [T+2]. *)
Theorem FetchBlockShaByHeight_range (db : Db) (h : Z) :
  reachable db ->
  (0 <= h <= tipHeight db ->
     exists blk, blocks db !! blockSha blk = Some (h, blk) /\
                 FetchBlockShaByHeight h db = inl (blockSha blk)) /\
  (h < 0 \/ tipHeight db < h ->
     FetchBlockShaByHeight h db = inr HeightNotFound) /\
  FetchBlockShaByHeight (-1) db = inr HeightNotFound /\
  FetchBlockShaByHeight (tipHeight db + 1) db = inr HeightNotFound /\
  FetchBlockShaByHeight (tipHeight db + 2) db = inr HeightNotFound.
Proof.
  intros Hreach. apply reachable_consistent in Hreach as Hc.
  assert (Hout : forall k, k < 0 \/ tipHeight db < k ->
                   FetchBlockShaByHeight k db = inr HeightNotFound).
  { intros k Hk. unfold FetchBlockShaByHeight.
    destruct ((k <? 0) || (tipHeight db <? k)) eqn:E; [reflexivity|].
    apply orb_false_iff in E as [E1 E2]. lia. }
  split; [|split; [exact (Hout h)|]].
  - intros Hin. unfold FetchBlockShaByHeight.
    replace ((h <? 0) || (tipHeight db <? h)) with false
      by (symmetry; apply orb_false_iff; lia).
    destruct (proj2 (heights_range db Hc h) Hin) as [sha Hsha].
    rewrite Hsha.
    destruct (heights_blocks db Hc h sha Hsha) as (blk & Hrow & Hblk).
    exists blk. rewrite Hblk. split; [exact Hrow | reflexivity].
  - repeat split; apply Hout; lia.
Qed.

Lemma FetchBlockShaByHeight_range_witness :
  (exists blk, blocks chain3 !! blockSha blk = Some (1, blk) /\
               FetchBlockShaByHeight 1 chain3 = inl (blockSha blk)) /\
  FetchBlockShaByHeight 3 chain3 = inr HeightNotFound.
Proof.
  destruct (FetchBlockShaByHeight_range chain3 1 chain3_reachable)
    as (Hin & _ & _ & Hnext & _).
  split.
  - apply Hin. vm_compute. split; discriminate.
  - exact Hnext.
Defined.

(** C2. In every state of the engine [FetchTxByShaList ids] returns
    exactly one reply per input id, in input order. The reply at position
    [i] carries [ids[i]]; when no committed entry has that txid it is the
    error [TxNotFound], and otherwise it carries the transaction, the
    containing block's hash and height, and the spent-bitvector of a
    committed entry of that txid, whose block is committed at that height
    and contains the transaction. *)
Theorem FetchTxByShaList_one_reply_per_id (db : Db) (ids : list ShaHash) :
  reachable db ->
  length (FetchTxByShaList ids db) = length ids /\
  forall (i : nat) (sha : ShaHash),
    ids !! i = Some sha ->
    exists r,
      FetchTxByShaList ids db !! i = Some r /\
      Sha r = sha /\
      ((ExistsTxSha sha db = false /\
        Err r = Some TxNotFound /\ Tx r = None /\ BlkSha r = None /\
        TxSpent r = None) \/
       (ExistsTxSha sha db = true /\
        exists e blk,
          e ∈ entriesOf (txIndex db) sha /\
          Err r = None /\
          Tx r = Some (entryTx e) /\
          BlkSha r = Some (entryBlkSha e) /\
          Height r = entryHeight e /\
          TxSpent r = Some (entrySpent e) /\
          TxSha (entryTx e) = sha /\
          blocks db !! entryBlkSha e = Some (entryHeight e, blk) /\
          entryTx e ∈ Transactions blk /\
          length (entrySpent e) = NumTxOut (entryTx e))).
Proof.
  intros Hreach. apply reachable_consistent in Hreach as Hc.
  unfold FetchTxByShaList. split; [apply length_fmap|].
  intros i sha Hi. rewrite list_lookup_fmap, Hi. cbn.
  eexists. split; [reflexivity|].
  pose proof (entriesOf_ok (blocks db) (txIndex db) sha
                (index_entries db Hc)) as Hall.
  unfold ExistsTxSha.
  destruct (last (entriesOf (txIndex db) sha)) as [e|] eqn:Hlast.
  - split; [reflexivity|]. right.
    pose proof (last_Some_elem_of _ _ Hlast) as He.
    rewrite Forall_forall in Hall.
    destruct (Hall e He) as (Hsha & (blk & Hrow & Hin) & Hlen).
    split.
    + destruct (entriesOf (txIndex db) sha); [inversion He | reflexivity].
    + exists e, blk. cbn. repeat split; assumption.
  - split; [reflexivity|]. left.
    apply last_None in Hlast. rewrite Hlast. cbn. repeat split.
Qed.

Lemma FetchTxByShaList_one_reply_per_id_witness :
  length (FetchTxByShaList [112%N; 999%N; 100%N] chain3) = 3%nat.
Proof.
  destruct (FetchTxByShaList_one_reply_per_id chain3 [112%N; 999%N; 100%N]
              chain3_reachable) as [Hlen _].
  exact Hlen.
Defined.

End btcdb_proofs.

(** ** Further properties of the script builder *)

Module scriptbuilder_more.

Import opcode params scriptbuilder scriptbuilder_proofs.

(** The bytes one call appends to an empty script. *)
Definition emitted (ScriptNum_Bytes : Z -> list Z) (c : Call) : list Z :=
  ScriptInt (call ScriptNum_Bytes c NewScriptBuilder).

(** [addData] appends the same bytes whatever the script holds. *)
Lemma addData_appends (data : list Z) (b : ScriptBuilder) :
  ScriptInt (addData data b)
  = ScriptInt b ++ ScriptInt (addData data NewScriptBuilder).
Proof.
  unfold addData, NewScriptBuilder. destruct data as [|d0 data].
  - reflexivity.
  - split_tests; cbn [ScriptInt set_script app];
      rewrite <- ?app_assoc; reflexivity.
Qed.

Section Calls.

Variable ScriptNum_Bytes : Z -> list Z.

(** No call clears an error. *)
Lemma call_keeps_error (c : Call) (b : ScriptBuilder) :
  ErrInt (call ScriptNum_Bytes c b) = None -> ErrInt b = None.
Proof.
  destruct (ErrInt b) as [e|] eqn:He; [|reflexivity].
  rewrite (call_after_error ScriptNum_Bytes c b e He), He. discriminate.
Qed.

Lemma calls_keep_error (cs : list Call) (b : ScriptBuilder) :
  ErrInt (calls ScriptNum_Bytes cs b) = None -> ErrInt b = None.
Proof.
  destruct (ErrInt b) as [e|] eqn:He; [|reflexivity].
  rewrite (calls_after_error ScriptNum_Bytes cs b e He), He. discriminate.
Qed.

(** A call that succeeds appends what it appends to an empty script. *)
Lemma call_success_appends (c : Call) (b : ScriptBuilder) :
  ErrInt (call ScriptNum_Bytes c b) = None ->
  ScriptInt (call ScriptNum_Bytes c b)
  = ScriptInt b ++ emitted ScriptNum_Bytes c.
Proof.
  intros Hok. pose proof (call_keeps_error c b Hok) as He.
  pose proof (len_nonneg (ScriptInt b)) as Hlen.
  unfold emitted. revert Hok.
  destruct c; cbn [call];
    unfold AddOp, AddOps, AddData, AddFullData, AddInt64;
    rewrite He; cbn [ErrInt NewScriptBuilder ScriptInt];
    rewrite ?len_nil, ?Z.add_0_l.
  - destruct (len (ScriptInt b) + 1 >? MaxScriptSize) eqn:E;
      [discriminate|]. intros _. reflexivity.
  - destruct (len (ScriptInt b) + len opcodes >? MaxScriptSize) eqn:E;
      [discriminate|]. intros _.
    pose proof (len_nonneg opcodes).
    destruct (len opcodes >? MaxScriptSize) eqn:E'; [exfalso; lia|].
    reflexivity.
  - destruct (len (ScriptInt b) + CanonicalDataSize data >? MaxScriptSize)
      eqn:E; [discriminate|].
    destruct (len data >? MaxScriptElementSize) eqn:E2; [discriminate|].
    intros _.
    destruct (CanonicalDataSize data >? MaxScriptSize) eqn:E';
      [exfalso; lia|].
    apply addData_appends.
  - intros _. apply addData_appends.
  - destruct (len (ScriptInt b) + 1 >? MaxScriptSize) eqn:E;
      [discriminate|].
    change (1 >? MaxScriptSize) with false. cbn iota.
    destruct (val =? 0); [intros _; reflexivity|].
    destruct ((val =? -1) || ((val >=? 1) && (val <=? 16)));
      [intros _; reflexivity|].
    unfold AddData. rewrite He. cbn [ErrInt ScriptInt].
    rewrite ?len_nil, ?Z.add_0_l.
    destruct (len (ScriptInt b) + CanonicalDataSize (ScriptNum_Bytes val)
              >? MaxScriptSize) eqn:E1; [discriminate|].
    destruct (len (ScriptNum_Bytes val) >? MaxScriptElementSize) eqn:E2;
      [discriminate|].
    intros _.
    destruct (CanonicalDataSize (ScriptNum_Bytes val) >? MaxScriptSize)
      eqn:E'; [exfalso; lia|].
    apply addData_appends.
Qed.

Lemma failed_call_script (c : Call) (b : ScriptBuilder) (e : R) :
  ErrInt (call ScriptNum_Bytes c b) = Some e ->
  ScriptInt (call ScriptNum_Bytes c b) = ScriptInt b.
Proof.
  intros Hc. destruct (ErrInt b) as [e0|] eqn:Hb.
  - rewrite (call_after_error ScriptNum_Bytes c b e0 Hb). reflexivity.
  - revert Hc. destruct c; cbn [call];
      unfold AddOp, AddOps, AddData, AddFullData, AddInt64; rewrite Hb;
      try (unfold AddData; rewrite Hb);
      split_tests; cbn [ScriptInt ErrInt set_script set_err];
      rewrite ?addData_err; try reflexivity; intros Hc; congruence.
Qed.


(** X1. A chain of calls that ends without an error has built the
    concatenation of what each call appends on its own: the bytes a call
    contributes do not depend on the calls before it. *)
Theorem calls_concatenate (cs : list Call) (b : ScriptBuilder) :
  ErrInt (calls ScriptNum_Bytes cs b) = None ->
  ScriptInt (calls ScriptNum_Bytes cs b)
  = ScriptInt b ++ concat (map (emitted ScriptNum_Bytes) cs).
Proof.
  revert b. induction cs as [|c cs IH]; intros b Hok.
  - cbn. rewrite app_nil_r. reflexivity.
  - change (calls ScriptNum_Bytes (c :: cs) b)
      with (calls ScriptNum_Bytes cs (call ScriptNum_Bytes c b)) in *.
    rewrite (IH _ Hok).
    rewrite (call_success_appends c b (calls_keep_error cs _ Hok)).
    cbn [map concat]. rewrite <- app_assoc. reflexivity.
Qed.

Lemma call_only_appends (c : Call) (b : ScriptBuilder) :
  exists suffix, ScriptInt (call ScriptNum_Bytes c b) = ScriptInt b ++ suffix.
Proof.
  destruct (ErrInt (call ScriptNum_Bytes c b)) as [e|] eqn:Hc.
  - exists []. rewrite app_nil_r. exact (failed_call_script c b e Hc).
  - eexists. exact (call_success_appends c b Hc).
Qed.

(** X2. No call rewrites what is already built: after any chain of calls
    the old script is a prefix of the new one. *)
Theorem calls_only_append (cs : list Call) (b : ScriptBuilder) :
  exists suffix,
    ScriptInt (calls ScriptNum_Bytes cs b) = ScriptInt b ++ suffix.
Proof.
  revert b. induction cs as [|c cs IH]; intros b.
  - exists []. cbn. rewrite app_nil_r. reflexivity.
  - change (calls ScriptNum_Bytes (c :: cs) b)
      with (calls ScriptNum_Bytes cs (call ScriptNum_Bytes c b)).
    destruct (IH (call ScriptNum_Bytes c b)) as [s1 Hs1].
    destruct (call_only_appends c b) as [s0 Hs0].
    exists (s0 ++ s1). rewrite Hs1, Hs0, app_assoc. reflexivity.
Qed.

End Calls.

Lemma calls_concatenate_witness :
  ScriptInt (calls scriptnum.Bytes
               [CallAddInt64 1000; CallAddOp OP_16; CallAddData [7; 8]]
               (AddOp OP_1 NewScriptBuilder))
  = [OP_1] ++ [0x02; 0xe8; 0x03] ++ [OP_16] ++ [0x02; 7; 8].
Proof.
  rewrite calls_concatenate by (vm_compute; reflexivity).
  vm_compute. reflexivity.
Defined.


(** X4. On an error-free builder [AddData] succeeds exactly when the
    script plus [CanonicalDataSize data] stays within [MaxScriptSize] and
    the element is at most [MaxScriptElementSize] bytes long; when it
    succeeds the script grows by exactly [CanonicalDataSize data] bytes. *)
Theorem AddData_accepts_iff (data : list Z) (b : ScriptBuilder) :
  ErrInt b = None ->
  (ErrInt (AddData data b) = None <->
   len (ScriptInt b) + CanonicalDataSize data <= MaxScriptSize /\
   len data <= MaxScriptElementSize) /\
  (ErrInt (AddData data b) = None ->
   len (ScriptInt (AddData data b))
   = len (ScriptInt b) + CanonicalDataSize data).
Proof.
  intros He. unfold AddData. rewrite He.
  destruct (len (ScriptInt b) + CanonicalDataSize data >? MaxScriptSize)
    eqn:E1; cbn [ErrInt set_err].
  - split; [split; [discriminate | lia] | discriminate].
  - destruct (len data >? MaxScriptElementSize) eqn:E2; cbn [ErrInt set_err].
    + split; [split; [discriminate | lia] | discriminate].
    + rewrite addData_err, addData_len, He.
      split; [split; [lia | reflexivity] | reflexivity].
Qed.

Lemma AddData_accepts_iff_witness :
  len (ScriptInt (AddData (repeat 0xab 80) (AddOp OP_1 NewScriptBuilder)))
  = 1 + 82.
Proof.
  destruct (AddData_accepts_iff (repeat 0xab 80) (AddOp OP_1 NewScriptBuilder))
    as [_ Hgrow]; [reflexivity|].
  rewrite Hgrow by (vm_compute; reflexivity). vm_compute. reflexivity.
Defined.

(** X5. On an error-free builder [AddFullData] never records an error,
    whatever the length of the data: it appends the canonical push of the
    data, [CanonicalDataSize data] bytes in all. *)
Theorem AddFullData_always_pushes (data : list Z) (b : ScriptBuilder) :
  ErrInt b = None ->
  Forall is_byte data ->
  ErrInt (AddFullData data b) = None /\
  ScriptInt (AddFullData data b) = ScriptInt b ++ canonical_push data /\
  len (ScriptInt (AddFullData data b))
  = len (ScriptInt b) + CanonicalDataSize data.
Proof.
  intros He Hbytes. unfold AddFullData. rewrite He.
  rewrite addData_err, addData_len, He.
  split; [reflexivity|]. split; [|reflexivity].
  apply addData_canonical. exact Hbytes.
Qed.

Lemma AddFullData_always_pushes_witness :
  ScriptInt (AddFullData (repeat 0xab 600) NewScriptBuilder)
  = [OP_PUSHDATA2; 0x58; 0x02] ++ repeat 0xab 600.
Proof.
  destruct (AddFullData_always_pushes (repeat 0xab 600) NewScriptBuilder)
    as (_ & Hs & _).
  - reflexivity.
  - apply List.Forall_forall. intros x Hx. apply repeat_spec in Hx. subst x.
    unfold is_byte. lia.
  - rewrite Hs. vm_compute. reflexivity.
Defined.

(** X6. While the script has room for one more byte, [AddInt64] on a small
    integer is [AddData] on its one-byte string: 0 is the empty string, -1
    the byte [0x81], and 1..16 the byte itself; the opcodes appended are
    [OP_0], [OP_1NEGATE] and [OP_1..OP_16]. *)
Theorem AddInt64_small_as_AddData
  (ScriptNum_Bytes : Z -> list Z) (b : ScriptBuilder) :
  ErrInt b = None ->
  len (ScriptInt b) + 1 <= MaxScriptSize ->
  AddInt64 ScriptNum_Bytes 0 b = AddData [] b /\
  AddInt64 ScriptNum_Bytes (-1) b = AddData [0x81] b /\
  (forall v, 1 <= v <= 16 -> AddInt64 ScriptNum_Bytes v b = AddData [v] b) /\
  ScriptInt (AddInt64 ScriptNum_Bytes 0 b) = ScriptInt b ++ [OP_0] /\
  ScriptInt (AddInt64 ScriptNum_Bytes (-1) b) = ScriptInt b ++ [OP_1NEGATE] /\
  (forall v, 1 <= v <= 16 ->
     ScriptInt (AddInt64 ScriptNum_Bytes v b) = ScriptInt b ++ [OP_N v]).
Proof.
  intros He Hroom.
  assert (Hfit : (len (ScriptInt b) + 1 >? MaxScriptSize) = false) by lia.
  assert (Hsmall : forall v, 1 <= v <= 16 ->
            AddInt64 ScriptNum_Bytes v b
            = set_script b (ScriptInt b ++ [OP_N v])).
  { intros v Hv. unfold AddInt64. rewrite He, Hfit.
    replace (v =? 0) with false by lia.
    replace ((v =? -1) || ((v >=? 1) && (v <=? 16))) with true by lia.
    unfold OP_N, to_byte, OP_1. do 3 f_equal.
    rewrite Z.mod_small by lia. lia. }
  assert (Hdata : forall v, 1 <= v <= 16 ->
            AddData [v] b = set_script b (ScriptInt b ++ [OP_N v])).
  { intros v Hv. unfold AddData, CanonicalDataSize, addData. rewrite He.
    change (len [v]) with 1. change (1 =? 1) with true. cbn [andb].
    replace (v <=? 16) with true by lia. rewrite Hfit.
    change (1 >? MaxScriptElementSize) with false. cbn iota.
    replace (v =? 0) with false by lia.
    unfold OP_N, to_byte, OP_1. do 3 f_equal.
    rewrite Z.mod_small by lia. lia. }
  repeat split.
  - unfold AddInt64, AddData. rewrite He.
    change (CanonicalDataSize []) with 1. rewrite Hfit. reflexivity.
  - unfold AddInt64, AddData. rewrite He.
    change (CanonicalDataSize [0x81]) with 1. rewrite Hfit. reflexivity.
  - intros v Hv. rewrite (Hsmall v Hv), (Hdata v Hv). reflexivity.
  - unfold AddInt64. rewrite He, Hfit. reflexivity.
  - unfold AddInt64. rewrite He, Hfit. reflexivity.
  - intros v Hv. rewrite (Hsmall v Hv). reflexivity.
Qed.

Lemma AddInt64_small_as_AddData_witness :
  AddInt64 scriptnum.Bytes 16 NewScriptBuilder = AddData [16] NewScriptBuilder.
Proof.
  destruct (AddInt64_small_as_AddData scriptnum.Bytes NewScriptBuilder)
    as (_ & _ & Hv & _).
  - reflexivity.
  - vm_compute. discriminate.
  - apply Hv. lia.
Defined.

(** X7. When the opcodes fit, [AddOps] is the chain of [AddOp] calls on
    the same opcodes; when they do not fit it appends none of them. *)
Theorem AddOps_as_AddOp_chain (opcodes : list Z) (b : ScriptBuilder) :
  ErrInt b = None ->
  (len (ScriptInt b) + len opcodes <= MaxScriptSize ->
   AddOps opcodes b = fold_left (fun acc op => AddOp op acc) opcodes b) /\
  (len (ScriptInt b) + len opcodes > MaxScriptSize ->
   ScriptInt (AddOps opcodes b) = ScriptInt b).
Proof.
  intros He. split.
  - revert b He. induction opcodes as [|op ops IH]; intros b He Hfit.
    + rewrite len_nil in Hfit. unfold AddOps. rewrite He, len_nil.
      replace (len (ScriptInt b) + 0 >? MaxScriptSize) with false by lia.
      cbn [fold_left]. unfold set_script. rewrite app_nil_r.
      destruct b; reflexivity.
    + rewrite len_cons in Hfit. pose proof (len_nonneg ops) as Hops.
      cbn [fold_left]. rewrite <- IH.
      * unfold AddOps, AddOp. rewrite He.
        replace (len (ScriptInt b) + 1 >? MaxScriptSize) with false by lia.
        cbn [ErrInt set_script ScriptInt]. rewrite He, len_app, len_cons.
        change (len [op]) with 1.
        replace (len (ScriptInt b) + (1 + len ops) >? MaxScriptSize)
          with false by lia.
        replace (len (ScriptInt b) + 1 + len ops >? MaxScriptSize)
          with false by lia.
        unfold set_script. cbn [ErrInt ScriptInt].
        rewrite <- app_assoc. reflexivity.
      * unfold AddOp. rewrite He.
        replace (len (ScriptInt b) + 1 >? MaxScriptSize) with false by lia.
        exact He.
      * unfold AddOp. rewrite He.
        replace (len (ScriptInt b) + 1 >? MaxScriptSize) with false by lia.
        cbn [ScriptInt set_script]. rewrite len_app, len_cons, len_nil. lia.
  - intros Hover. unfold AddOps. rewrite He.
    replace (len (ScriptInt b) + len opcodes >? MaxScriptSize) with true
      by lia.
    reflexivity.
Qed.

Lemma AddOps_as_AddOp_chain_witness :
  AddOps [OP_1; OP_16; OP_0] NewScriptBuilder
  = AddOp OP_0 (AddOp OP_16 (AddOp OP_1 NewScriptBuilder)).
Proof.
  destruct (AddOps_as_AddOp_chain [OP_1; OP_16; OP_0] NewScriptBuilder)
    as [Hfit _]; [reflexivity|].
  rewrite Hfit by (vm_compute; discriminate). reflexivity.
Defined.

(** X8. A single [AddData] on a new builder, as the wallet's
    [ComputeInputScript] builds its signature script, succeeds for every
    element of at most [MaxScriptElementSize] bytes and yields the
    canonical push of the element; for 2 to 75 bytes that is the length
    byte followed by the data. *)
Theorem new_builder_single_push (data : list Z) :
  Forall is_byte data ->
  len data <= MaxScriptElementSize ->
  Script (AddData data NewScriptBuilder) = (canonical_push data, None) /\
  (2 <= len data <= 75 ->
   Script (AddData data NewScriptBuilder) = (len data :: data, None)).
Proof.
  intros Hbytes Hlen.
  assert (Hsize : CanonicalDataSize data <= 3 + len data).
  { unfold CanonicalDataSize. destruct data as [|d0 data]; [rewrite len_nil; lia|].
    unfold MaxScriptElementSize in Hlen. split_tests; lia. }
  assert (HS : Script (AddData data NewScriptBuilder)
               = (canonical_push data, None)).
  { unfold Script, AddData. cbn [ErrInt NewScriptBuilder ScriptInt].
    rewrite len_nil, Z.add_0_l.
    unfold MaxScriptElementSize, MaxScriptSize in *.
    replace (CanonicalDataSize data >? 10000) with false by lia.
    replace (len data >? 520) with false by lia.
    rewrite addData_err, (addData_canonical data _ Hbytes). reflexivity. }
  split; [exact HS|].
  intros Hrange. rewrite HS. f_equal.
  unfold canonical_push, small_int_push.
  destruct data as [|d0 [|d1 data]].
  - rewrite len_nil in Hrange. lia.
  - change (len [d0]) with 1 in Hrange. lia.
  - replace (len (d0 :: d1 :: data) <=? 75) with true by lia. reflexivity.
Qed.

Lemma new_builder_single_push_witness :
  Script (AddData (0x00 :: 0x14 :: repeat 0x11 20) NewScriptBuilder)
  = (22 :: 0x00 :: 0x14 :: repeat 0x11 20, None).
Proof.
  destruct (new_builder_single_push (0x00 :: 0x14 :: repeat 0x11 20))
    as [_ Hpush].
  - repeat (constructor; [unfold is_byte; lia|]). constructor.
  - vm_compute. discriminate.
  - apply Hpush. vm_compute. split; discriminate.
Defined.

End scriptbuilder_more.

(** ** Further properties of the chain-parameter registry *)

Module chaincfg_more.

Import gostrings chaincfg gostrings_proofs chaincfg_proofs.

#[local] Set Warnings "-clear-no-such-hyp".

(** A sequence of [Register] calls: the registry it leaves and the error
    each call returned. *)
Fixpoint registerSeq (ps : list Params) (r : Registry)
  : Registry * list (option Err) :=
  match ps with
  | [] => (r, [])
  | p :: ps' =>
      let '(r1, e) := Register p r in
      let '(r2, es) := registerSeq ps' r1 in
      (r2, e :: es)
  end.

(** A sequence of [mustRegister] calls, as in the package's [init]. *)
Fixpoint mustRegisterAll (ps : list Params) (r : Registry)
  : option Registry :=
  match ps with
  | [] => Some r
  | p :: ps' => r1 ← mustRegister p r; mustRegisterAll ps' r1
  end.

Lemma mustRegister_Some (p : Params) (r : Registry) :
  is_Some (mustRegister p r) <-> Net p ∉ registeredNets r.
Proof.
  unfold mustRegister, Register.
  destruct (decide (Net p ∈ registeredNets r)) as [Hin|Hin]; cbn.
  - split; [intros [? [=]] | contradiction].
  - split; [intros _; exact Hin | intros _; eexists; reflexivity].
Qed.

Lemma mustRegisterAll_Some (ps : list Params) (r : Registry) :
  is_Some (mustRegisterAll ps r) <->
  NoDup (Net <$> ps) /\ (forall n, n ∈ Net <$> ps -> n ∉ registeredNets r).
Proof.
  revert r. induction ps as [|p ps IH]; intros r; cbn [mustRegisterAll].
  - split; [intros _; split; [constructor | set_solver] | intros _; eauto].
  - rewrite fmap_cons, NoDup_cons.
    destruct (mustRegister p r) as [r1|] eqn:H1; cbn.
    + pose proof (mustRegister_nets p r r1 H1) as [_ Hsub].
      assert (Hnets : registeredNets r1 = {[Net p]} ∪ registeredNets r).
      { unfold mustRegister in H1.
        destruct (Register p r) as [r1' [e|]] eqn:HR; [discriminate|].
        injection H1 as ->.
        apply Register_success_inv in HR as (_ & H & _). exact H. }
      assert (Hfresh : Net p ∉ registeredNets r).
      { apply mustRegister_Some. rewrite H1. eauto. }
      rewrite IH, Hnets. set_solver.
    + assert (Hin : ~ (Net p ∉ registeredNets r)).
      { rewrite <- mustRegister_Some, H1. intros [? [=]]. }
      split; [intros [? [=]]|]. intros (_ & Hall). exfalso.
      apply Hin, Hall. set_solver.
Qed.

Section Networks.

Variables MainNet TestNet TestNet3 PktTestNet PktMainNet SimNet : Z.

Local Abbreviation init' :=
  (init MainNet TestNet TestNet3 PktTestNet PktMainNet SimNet).
Local Abbreviation defaultNets' :=
  (defaultNets MainNet TestNet TestNet3 PktTestNet PktMainNet SimNet).

Lemma init_as_sequence : init' = mustRegisterAll defaultNets' emptyRegistry.
Proof.
  unfold init, defaultNets. cbn [mustRegisterAll].
  repeat (destruct (mustRegister _ _) as [?r|]; cbn; [|reflexivity]).
  reflexivity.
Qed.

(** X9. The package's [init] runs to completion, without a panic in
    [mustRegister], exactly when the six network magics are pairwise
    distinct. *)
Theorem init_succeeds_iff_distinct :
  is_Some (init MainNet TestNet TestNet3 PktTestNet PktMainNet SimNet) <->
  NoDup [MainNet; TestNet3; PktTestNet; PktMainNet; TestNet; SimNet].
Proof.
  rewrite init_as_sequence, mustRegisterAll_Some. cbn.
  split; [intros [H _]; exact H | intros H; split; [exact H|]].
  intros n _. apply not_elem_of_empty.
Qed.

End Networks.

(** *** What one [Register] call changes *)

Lemma slice4_inj (a b : byte4) : slice4 a = slice4 b -> a = b.
Proof.
  destruct a as [[[a0 a1] a2] a3], b as [[[b0 b1] b2] b3]. cbn.
  intros [= -> -> -> ->]. reflexivity.
Qed.

Lemma HD_lookup_slice4 (k : byte4) (r : Registry) :
  HDPrivateKeyToPublicKeyID (slice4 k) r
  = match hdPrivToPubKeyIDs r !! k with
    | Some pub => inl pub
    | None => inr ErrUnknownHDKeyID
    end.
Proof. destruct k as [[[k0 k1] k2] k3]. reflexivity. Qed.

Lemma HD_lookup_inl (id pub : list Z) (r : Registry) :
  HDPrivateKeyToPublicKeyID id r = inl pub <->
  exists k, id = slice4 k /\ hdPrivToPubKeyIDs r !! k = Some pub.
Proof.
  split.
  - unfold HDPrivateKeyToPublicKeyID.
    destruct id as [|k0 [|k1 [|k2 [|k3 [|k4 id]]]]]; try discriminate.
    destruct (hdPrivToPubKeyIDs r !! (k0, k1, k2, k3)) as [v|] eqn:E;
      [|discriminate].
    intros [= <-]. exists (k0, k1, k2, k3). split; [reflexivity | exact E].
  - intros (k & -> & E). rewrite HD_lookup_slice4, E. reflexivity.
Qed.

Section Lookups.

Variable unicodeLower : string -> string.


End Lookups.


(** *** Sequences of [Register] calls *)

(** Whether it succeeds or not, a [Register] call removes nothing. *)
Lemma Register_grows (p : Params) (r : Registry) :
  let r' := fst (Register p r) in
  registeredNets r ⊆ registeredNets r' /\
  pubKeyHashAddrIDs r ⊆ pubKeyHashAddrIDs r' /\
  scriptHashAddrIDs r ⊆ scriptHashAddrIDs r' /\
  bech32SegwitPrefixes r ⊆ bech32SegwitPrefixes r' /\
  (forall k, is_Some (hdPrivToPubKeyIDs r !! k) ->
             is_Some (hdPrivToPubKeyIDs r' !! k)).
Proof.
  unfold Register.
  destruct (decide (Net p ∈ registeredNets r)); cbn.
  - repeat split; try reflexivity. intros k H. exact H.
  - repeat split; try set_solver.
    intros k Hk. apply lookup_insert_is_Some'. right. exact Hk.
Qed.

Lemma registerSeq_cons (p : Params) (ps : list Params) (r : Registry) :
  registerSeq (p :: ps) r
  = (fst (registerSeq ps (fst (Register p r))),
     snd (Register p r) :: snd (registerSeq ps (fst (Register p r)))).
Proof.
  cbn [registerSeq]. destruct (Register p r) as [r1 e]. cbn [fst snd].
  destruct (registerSeq ps r1) as [r2 es]. reflexivity.
Qed.

Lemma registerSeq_grows (ps : list Params) (r : Registry) :
  let r' := fst (registerSeq ps r) in
  registeredNets r ⊆ registeredNets r' /\
  pubKeyHashAddrIDs r ⊆ pubKeyHashAddrIDs r' /\
  scriptHashAddrIDs r ⊆ scriptHashAddrIDs r' /\
  bech32SegwitPrefixes r ⊆ bech32SegwitPrefixes r' /\
  (forall k, is_Some (hdPrivToPubKeyIDs r !! k) ->
             is_Some (hdPrivToPubKeyIDs r' !! k)).
Proof.
  revert r. induction ps as [|p ps IH]; intros r.
  - cbn. repeat split; try reflexivity. intros k H. exact H.
  - rewrite registerSeq_cons. cbn [fst].
    destruct (Register_grows p r) as (N1 & P1 & S1 & B1 & H1).
    destruct (IH (fst (Register p r))) as (N2 & P2 & S2 & B2 & H2).
    cbn zeta in *. repeat split; try (etrans; eassumption).
    intros k Hk. apply H2, H1, Hk.
Qed.

(** X11. Nothing is ever unregistered: whatever [Register] calls follow,
    a network magic, a P2PKH or P2SH byte and a segwit prefix that are
    known stay known, and an HD private id that has a public id keeps
    having one. *)
Theorem registered_stays_registered
  (unicodeLower : string -> string) (ps : list Params) (r : Registry) :
  let r' := fst (registerSeq ps r) in
  (forall n, n ∈ registeredNets r -> n ∈ registeredNets r') /\
  (forall id, IsPubKeyHashAddrID id r = true ->
              IsPubKeyHashAddrID id r' = true) /\
  (forall id, IsScriptHashAddrID id r = true ->
              IsScriptHashAddrID id r' = true) /\
  (forall s, IsBech32SegwitPrefix unicodeLower s r = true ->
             IsBech32SegwitPrefix unicodeLower s r' = true) /\
  (forall id pub, HDPrivateKeyToPublicKeyID id r = inl pub ->
                  exists pub', HDPrivateKeyToPublicKeyID id r' = inl pub').
Proof.
  intros r'. destruct (registerSeq_grows ps r) as (HN & HP & HS & HB & HH).
  fold r' in HN, HP, HS, HB, HH.
  unfold IsPubKeyHashAddrID, IsScriptHashAddrID, IsBech32SegwitPrefix.
  split; [|split; [|split; [|split]]].
  - intros n Hn. apply HN, Hn.
  - intros id. rewrite !bool_decide_eq_true. apply HP.
  - intros id. rewrite !bool_decide_eq_true. apply HS.
  - intros s. rewrite !bool_decide_eq_true. apply HB.
  - intros id pub Hid. apply HD_lookup_inl in Hid as (k & -> & Hk).
    destruct (HH k) as [pub' Hpub']; [eauto|].
    exists pub'. apply HD_lookup_inl. eauto.
Qed.

(** X12. The HD table is keyed by the private id alone: when a second
    network is registered with the private id of an earlier one, the
    lookup of that id returns the public id of the later network. *)
Theorem HD_later_registration_wins (p q : Params) (r r1 r2 : Registry) :
  Register p r = (r1, None) ->
  Register q r1 = (r2, None) ->
  HDPrivateKeyID q = HDPrivateKeyID p ->
  HDPrivateKeyToPublicKeyID (slice4 (HDPrivateKeyID p)) r2
  = inl (slice4 (HDPublicKeyID q)).
Proof.
  intros _ Hq Heq.
  apply Register_success_inv in Hq as (_ & _ & _ & _ & _ & Hhd).
  rewrite HD_lookup_slice4, Hhd, Heq, lookup_insert_eq. reflexivity.
Qed.

(** A second user network with [mockNetParams]' private id and another
    public id. *)
Definition rivalNetParams : Params := {|
  Name := "rivalnet";
  Net := 2 ^ 32 - 2;
  DefaultPort := "";
  Deployments := Deployments mockNetParams;
  Bech32HRPSegwit := "rv";
  PubKeyHashAddrID := 0x9e;
  ScriptHashAddrID := 0xf8;
  PrivateKeyID := 0;
  WitnessPubKeyHashAddrID := 0;
  WitnessScriptHashAddrID := 0;
  HDPrivateKeyID := (0x01, 0x02, 0x03, 0x04);
  HDPublicKeyID := (0x09, 0x0a, 0x0b, 0x0c);
  HDCoinType := 0
|}.

Lemma HD_later_registration_wins_witness :
  let r1 := fst (Register mockNetParams sampleRegistry) in
  let r2 := fst (Register rivalNetParams r1) in
  HDPrivateKeyToPublicKeyID [0x01; 0x02; 0x03; 0x04] r1
    = inl [0x05; 0x06; 0x07; 0x08] /\
  HDPrivateKeyToPublicKeyID (slice4 (HDPrivateKeyID mockNetParams)) r2
    = inl (slice4 (HDPublicKeyID rivalNetParams)).
Proof.
  intros r1 r2. split; [vm_compute; reflexivity|].
  apply (HD_later_registration_wins mockNetParams rivalNetParams
           sampleRegistry r1 r2).
  - vm_compute. reflexivity.
  - vm_compute. reflexivity.
  - reflexivity.
Defined.

(** Every public id in the table is the slice of a four-byte array. *)
Definition hd_values_ok (r : Registry) : Prop :=
  forall k v, hdPrivToPubKeyIDs r !! k = Some v -> length v = 4%nat.

Lemma Register_hd_values_ok (p : Params) (r : Registry) :
  hd_values_ok r -> hd_values_ok (fst (Register p r)).
Proof.
  intros Hok. unfold Register.
  destruct (decide (Net p ∈ registeredNets r)); cbn; [exact Hok|].
  intros k v. cbn. rewrite lookup_insert_Some. intros [[_ <-]|[_ Hk]].
  - destruct (HDPublicKeyID p) as [[[a0 a1] a2] a3]. reflexivity.
  - exact (Hok k v Hk).
Qed.

Lemma registerSeq_hd_values_ok (ps : list Params) (r : Registry) :
  hd_values_ok r -> hd_values_ok (fst (registerSeq ps r)).
Proof.
  revert r. induction ps as [|p ps IH]; intros r Hok; [exact Hok|].
  rewrite registerSeq_cons. cbn [fst]. apply IH, Register_hd_values_ok, Hok.
Qed.

(** X13. [HDPrivateKeyToPublicKeyID] fails with [ErrUnknownHDKeyID], and
    with no other error, on every id that is not four bytes long or is not
    in the table; in a registry built by [Register] calls alone, a
    successful lookup takes a four-byte id to a four-byte public id. *)
Theorem HDPrivateKeyToPublicKeyID_lengths :
  (forall r id, length id <> 4%nat ->
     HDPrivateKeyToPublicKeyID id r = inr ErrUnknownHDKeyID) /\
  (forall r id e,
     HDPrivateKeyToPublicKeyID id r = inr e -> e = ErrUnknownHDKeyID) /\
  (forall r k, hdPrivToPubKeyIDs r !! k = None ->
     HDPrivateKeyToPublicKeyID (slice4 k) r = inr ErrUnknownHDKeyID) /\
  (forall ps id pub,
     HDPrivateKeyToPublicKeyID id (fst (registerSeq ps emptyRegistry))
       = inl pub ->
     length id = 4%nat /\ length pub = 4%nat).
Proof.
  split; [|split; [|split]].
  - intros r id Hlen. unfold HDPrivateKeyToPublicKeyID.
    destruct id as [|k0 [|k1 [|k2 [|k3 [|k4 id]]]]]; try reflexivity.
    contradiction Hlen. reflexivity.
  - intros r id e. unfold HDPrivateKeyToPublicKeyID.
    destruct id as [|k0 [|k1 [|k2 [|k3 [|k4 id]]]]];
      try (intros [= <-]; reflexivity).
    destruct (hdPrivToPubKeyIDs r !! _); [discriminate|].
    intros [= <-]. reflexivity.
  - intros r k Hk. rewrite HD_lookup_slice4, Hk. reflexivity.
  - intros ps id pub Hid. apply HD_lookup_inl in Hid as (k & -> & Hk).
    split.
    + destruct k as [[[k0 k1] k2] k3]. reflexivity.
    + apply (registerSeq_hd_values_ok ps emptyRegistry) in Hk; [exact Hk|].
      intros k' v. cbn. rewrite lookup_empty. discriminate.
Qed.

(** The outcome of one call, by the magic alone. *)
Lemma Register_outcome (p : Params) (r : Registry) :
  snd (Register p r)
  = (if decide (Net p ∈ registeredNets r) then Some ErrDuplicateNet
     else None) /\
  (forall n, n ∈ registeredNets (fst (Register p r)) <->
             n = Net p \/ n ∈ registeredNets r).
Proof.
  unfold Register.
  destruct (decide (Net p ∈ registeredNets r)) as [Hin|Hout]; cbn.
  - split; [reflexivity|]. intros n. set_solver.
  - split; [reflexivity|]. intros n. set_solver.
Qed.

Lemma registerSeq_outcomes (ps : list Params) (r : Registry) :
  length (snd (registerSeq ps r)) = length ps /\
  (forall n, n ∈ registeredNets (fst (registerSeq ps r)) <->
             n ∈ Net <$> ps \/ n ∈ registeredNets r) /\
  (forall i p, ps !! i = Some p ->
     snd (registerSeq ps r) !! i
     = Some (if decide (Net p ∈ registeredNets r \/
                        Net p ∈ Net <$> take i ps)
             then Some ErrDuplicateNet else None)).
Proof.
  revert r. induction ps as [|p0 ps IH]; intros r.
  - cbn. split; [reflexivity|]. split; [set_solver|]. intros i p [=].
  - rewrite registerSeq_cons. cbn [fst snd].
    destruct (Register_outcome p0 r) as [He0 Hn0].
    destruct (IH (fst (Register p0 r))) as (Hlen & Hnets & Hres).
    split; [cbn; rewrite Hlen; reflexivity|]. split.
    + intros n. rewrite Hnets, Hn0, fmap_cons, elem_of_cons. tauto.
    + intros [|i] p Hp.
      * injection Hp as ->. cbn. rewrite He0. f_equal.
        apply decide_ext. set_solver.
      * cbn in Hp.
        change ((snd (Register p0 r)
                 :: snd (registerSeq ps (fst (Register p0 r)))) !! S i)
          with (snd (registerSeq ps (fst (Register p0 r))) !! i).
        rewrite (Hres i p Hp).
        f_equal. apply decide_ext.
        rewrite Hn0. cbn [take]. rewrite fmap_cons, elem_of_cons. tauto.
Qed.

(** X14. In a sequence of [Register] calls every call returns a result;
    a call succeeds exactly when its magic was not registered before the
    sequence and is not the magic of an earlier call of the sequence, and
    fails with [ErrDuplicateNet] otherwise. The magics registered in the
    end are the old ones and those of the sequence, and two calls that
    both succeed never share a magic. *)
Theorem registerSeq_results (ps : list Params) (r : Registry) :
  let r' := fst (registerSeq ps r) in
  let es := snd (registerSeq ps r) in
  length es = length ps /\
  (forall n, n ∈ registeredNets r' <->
             n ∈ Net <$> ps \/ n ∈ registeredNets r) /\
  (forall i p, ps !! i = Some p ->
     es !! i
     = Some (if decide (Net p ∈ registeredNets r \/
                        Net p ∈ Net <$> take i ps)
             then Some ErrDuplicateNet else None)) /\
  (forall i j p q,
     (i < j)%nat -> ps !! i = Some p -> ps !! j = Some q ->
     es !! i = Some None -> es !! j = Some None ->
     Net p <> Net q).
Proof.
  intros r' es. destruct (registerSeq_outcomes ps r) as (Hlen & Hnets & Hres).
  split; [exact Hlen|]. split; [exact Hnets|]. split; [exact Hres|].
  intros i j p q Hij Hp Hq _ Hj Heq.
  subst es. rewrite (Hres j q Hq) in Hj.
  destruct (decide (Net q ∈ registeredNets r \/ Net q ∈ Net <$> take j ps))
    as [|Hfresh]; [discriminate|].
  apply Hfresh. right. rewrite <- Heq.
  apply list_elem_of_fmap_2, (list_elem_of_lookup_2 _ i).
  rewrite lookup_take_lt by exact Hij. exact Hp.
Qed.

(** *** The registry that [init] leaves *)

Lemma mustRegister_inv (p : Params) (r r' : Registry) :
  mustRegister p r = Some r' -> Register p r = (r', None).
Proof.
  unfold mustRegister. destruct (Register p r) as [r1 [e|]]; [discriminate|].
  intros [= <-]. reflexivity.
Qed.

Section InitTables.

Variables MainNet TestNet TestNet3 PktTestNet PktMainNet SimNet : Z.

Local Abbreviation init' :=
  (init MainNet TestNet TestNet3 PktTestNet PktMainNet SimNet).

(** The four lookup tables after [init], written out. *)
Lemma init_tables (r : Registry) :
  init' = Some r ->
  pubKeyHashAddrIDs r = {[0x3f; 0x6f; 0x75; 0x00]} /\
  scriptHashAddrIDs r = {[0x7b; 0xc4; 0x38; 0x05]} /\
  bech32SegwitPrefixes r
    = {["sb1"; "bcrt1"; "cjdcoin1"; "tpk1"; "tb1"; "bc1"]}%string /\
  hdPrivToPubKeyIDs r
    = <[(0x04, 0x20, 0xb9, 0x00) := [0x04; 0x20; 0xbd; 0x3a]]>
      (<[(0x6b, 0x86, 0x3b, 0xed) := [0x6b; 0x85; 0xc5; 0x3f]]>
       (<[(0x04, 0x35, 0x83, 0x94) := [0x04; 0x35; 0x87; 0xcf]]>
        (<[(0x04, 0x88, 0xad, 0xe4) := [0x04; 0x88; 0xb2; 0x1e]]> ∅))).
Proof.
  unfold init. intros Hinit.
  destruct (mustRegister (MainNetParams MainNet) emptyRegistry)
    as [r1|] eqn:H1; [|discriminate].
  cbn [mbind option_bind] in Hinit.
  destruct (mustRegister (TestNet3Params TestNet3) r1)
    as [r2|] eqn:H2; [|discriminate].
  cbn [mbind option_bind] in Hinit.
  destruct (mustRegister (PktTestNetParams PktTestNet) r2)
    as [r3|] eqn:H3; [|discriminate].
  cbn [mbind option_bind] in Hinit.
  destruct (mustRegister (PktMainNetParams PktMainNet) r3)
    as [r4|] eqn:H4; [|discriminate].
  cbn [mbind option_bind] in Hinit.
  destruct (mustRegister (RegressionNetParams TestNet) r4)
    as [r5|] eqn:H5; [|discriminate].
  cbn [mbind option_bind] in Hinit.
  apply mustRegister_inv, Register_success_inv in H1, H2, H3, H4, H5, Hinit.
  destruct H1 as (_ & _ & P1 & S1 & B1 & D1), H2 as (_ & _ & P2 & S2 & B2 & D2),
    H3 as (_ & _ & P3 & S3 & B3 & D3), H4 as (_ & _ & P4 & S4 & B4 & D4),
    H5 as (_ & _ & P5 & S5 & B5 & D5), Hinit as (_ & _ & P6 & S6 & B6 & D6).
  cbn in P1, S1, B1, D1.
  rewrite P6, P5, P4, P3, P2, P1, S6, S5, S4, S3, S2, S1,
    B6, B5, B4, B3, B2, B1, D6, D5, D4, D3, D2, D1.
  cbn [PubKeyHashAddrID ScriptHashAddrID Bech32HRPSegwit HDPrivateKeyID
       HDPublicKeyID MainNetParams TestNet3Params PktTestNetParams
       PktMainNetParams RegressionNetParams SimNetParams slice4].
  split; [set_solver|]. split; [set_solver|]. split.
  - change (String.append "sb" "1") with "sb1"%string.
    change (String.append "bcrt" "1") with "bcrt1"%string.
    change (String.append "cjdcoin" "1") with "cjdcoin1"%string.
    change (String.append "tpk" "1") with "tpk1"%string.
    change (String.append "tb" "1") with "tb1"%string.
    change (String.append "bc" "1") with "bc1"%string.
    set_solver.
  - rewrite (insert_insert_eq (<[_ := _]> ∅)).
    rewrite (insert_insert_ne _ (0x04, 0x35, 0x83, 0x94)
               (0x6b, 0x86, 0x3b, 0xed)) by discriminate.
    rewrite insert_insert_eq. reflexivity.
Qed.

(** X15. Once [init] has run, the lookups know the identifiers of the six
    built-in networks and no others: four P2PKH bytes, four P2SH bytes,
    six segwit prefixes (up to case), and four HD private ids, each with
    its public id. *)
Theorem lookups_after_init
  (unicodeLower : string -> string) (r : Registry) :
  init' = Some r ->
  (forall id, IsPubKeyHashAddrID id r = true <->
     id = 0x00 \/ id = 0x6f \/ id = 0x75 \/ id = 0x3f) /\
  (forall id, IsScriptHashAddrID id r = true <->
     id = 0x05 \/ id = 0xc4 \/ id = 0x38 \/ id = 0x7b) /\
  (forall s, IsBech32SegwitPrefix unicodeLower s r = true <->
     In (ToLower unicodeLower s)
        ["bc1"; "tb1"; "tpk1"; "cjdcoin1"; "bcrt1"; "sb1"]%string) /\
  (forall id pub, HDPrivateKeyToPublicKeyID id r = inl pub <->
     In (id, pub)
        [ ([0x04; 0x88; 0xad; 0xe4], [0x04; 0x88; 0xb2; 0x1e]);
          ([0x04; 0x35; 0x83; 0x94], [0x04; 0x35; 0x87; 0xcf]);
          ([0x6b; 0x86; 0x3b; 0xed], [0x6b; 0x85; 0xc5; 0x3f]);
          ([0x04; 0x20; 0xb9; 0x00], [0x04; 0x20; 0xbd; 0x3a]) ]).
Proof.
  intros Hinit. destruct (init_tables r Hinit) as (Hpk & Hsh & Hbp & Hhd).
  unfold IsPubKeyHashAddrID, IsScriptHashAddrID, IsBech32SegwitPrefix.
  split; [|split; [|split]].
  - intros id. rewrite bool_decide_eq_true, Hpk. set_solver.
  - intros id. rewrite bool_decide_eq_true, Hsh. set_solver.
  - intros s. rewrite bool_decide_eq_true, Hbp. cbn [In]. set_solver.
  - intros id pub. rewrite HD_lookup_inl. cbn [In]. split.
    + intros (k & -> & Hk). rewrite Hhd in Hk.
      rewrite !lookup_insert_Some, lookup_empty in Hk.
      destruct Hk as [[<- <-]|[_ [[<- <-]|[_ [[<- <-]|[_ [[<- <-]|[_ [=]]]]]]]]];
        cbn; tauto.
    + intros [H|[H|[H|[H|[]]]]]; injection H as <- <-; rewrite Hhd.
      * exists (0x04, 0x88, 0xad, 0xe4). split; reflexivity.
      * exists (0x04, 0x35, 0x83, 0x94). split; reflexivity.
      * exists (0x6b, 0x86, 0x3b, 0xed). split; reflexivity.
      * exists (0x04, 0x20, 0xb9, 0x00). split; reflexivity.
Qed.

End InitTables.

Lemma lookups_after_init_witness :
  IsBech32SegwitPrefix bytewiseLower "CJDCOIN1" sampleRegistry = true /\
  IsPubKeyHashAddrID 0x9f sampleRegistry = false.
Proof.
  destruct (lookups_after_init sampleMainNet sampleTestNet sampleTestNet3
              samplePktTestNet samplePktMainNet sampleSimNet bytewiseLower
              sampleRegistry sampleInit_succeeds) as (Hpk & _ & Hbp & _).
  split.
  - apply Hbp. vm_compute. tauto.
  - apply not_true_is_false. rewrite Hpk. lia.
Defined.

(** *** The package's own test, [TestRegister] *)

Record registerTest : Type := mkRegisterTest {
  regName : string;
  regParams : Params;
  regErr : option Err
}.

Record magicTest : Type := mkMagicTest {
  magic : Z;
  magicValid : bool
}.

Record prefixTest : Type := mkPrefixTest {
  prefix : string;
  prefixValid : bool
}.

(** A nil [want] is the empty list. *)
Record hdTest : Type := mkHdTest {
  priv : list Z;
  want : list Z;
  hdErr : option Err
}.

Record registryTest : Type := mkRegistryTest {
  testName : string;
  register : list registerTest;
  p2pkhMagics : list magicTest;
  p2shMagics : list magicTest;
  segwitPrefixes : list prefixTest;
  hdMagics : list hdTest
}.

(** [er.Equals] on the two errors of this package, and [bytes.Equal]. *)
Definition errEquals (e1 e2 : option Err) : bool :=
  match e1, e2 with
  | None, None => true
  | Some ErrDuplicateNet, Some ErrDuplicateNet => true
  | Some ErrUnknownHDKeyID, Some ErrUnknownHDKeyID => true
  | _, _ => false
  end.

Definition bytesEqual (a b : list Z) : bool :=
  bool_decide (a = b).

Section TestRegister.

Variables MainNet TestNet TestNet3 PktTestNet PktMainNet SimNet : Z.
Variable unicodeLower : string -> string.
Variable unicodeUpper : string -> string.

(** The three rows of the test's table. *)
Definition tests : list registryTest := [
  mkRegistryTest "default networks" [
    mkRegisterTest "duplicate mainnet" (MainNetParams MainNet) (Some ErrDuplicateNet);
    mkRegisterTest "duplicate regtest" (RegressionNetParams TestNet) (Some ErrDuplicateNet);
    mkRegisterTest "duplicate testnet3" (TestNet3Params TestNet3) (Some ErrDuplicateNet);
    mkRegisterTest "duplicate simnet" (SimNetParams SimNet) (Some ErrDuplicateNet) ] [
    mkMagicTest (PubKeyHashAddrID (MainNetParams MainNet)) true;
    mkMagicTest (PubKeyHashAddrID (TestNet3Params TestNet3)) true;
    mkMagicTest (PubKeyHashAddrID (RegressionNetParams TestNet)) true;
    mkMagicTest (PubKeyHashAddrID (SimNetParams SimNet)) true;
    mkMagicTest (PubKeyHashAddrID mockNetParams) false;
    mkMagicTest 0xFF false ] [
    mkMagicTest (ScriptHashAddrID (MainNetParams MainNet)) true;
    mkMagicTest (ScriptHashAddrID (TestNet3Params TestNet3)) true;
    mkMagicTest (ScriptHashAddrID (RegressionNetParams TestNet)) true;
    mkMagicTest (ScriptHashAddrID (SimNetParams SimNet)) true;
    mkMagicTest (ScriptHashAddrID mockNetParams) false;
    mkMagicTest 0xFF false ] [
    mkPrefixTest (String.append (Bech32HRPSegwit (MainNetParams MainNet)) "1") true;
    mkPrefixTest (String.append (Bech32HRPSegwit (TestNet3Params TestNet3)) "1") true;
    mkPrefixTest (String.append (Bech32HRPSegwit (RegressionNetParams TestNet)) "1") true;
    mkPrefixTest (String.append (Bech32HRPSegwit (SimNetParams SimNet)) "1") true;
    mkPrefixTest
      (ToUpper unicodeUpper
         (String.append (Bech32HRPSegwit (MainNetParams MainNet)) "1")) true;
    mkPrefixTest (String.append (Bech32HRPSegwit mockNetParams) "1") false;
    mkPrefixTest "abc1" false;
    mkPrefixTest "1" false;
    mkPrefixTest (Bech32HRPSegwit (MainNetParams MainNet)) false ] [
    mkHdTest (slice4 (HDPrivateKeyID (MainNetParams MainNet))) (slice4 (HDPublicKeyID (MainNetParams MainNet))) None;
    mkHdTest (slice4 (HDPrivateKeyID (TestNet3Params TestNet3))) (slice4 (HDPublicKeyID (TestNet3Params TestNet3))) None;
    mkHdTest (slice4 (HDPrivateKeyID (RegressionNetParams TestNet))) (slice4 (HDPublicKeyID (RegressionNetParams TestNet))) None;
    mkHdTest (slice4 (HDPrivateKeyID (SimNetParams SimNet))) (slice4 (HDPublicKeyID (SimNetParams SimNet))) None;
    mkHdTest (slice4 (HDPrivateKeyID mockNetParams)) [] (Some ErrUnknownHDKeyID);
    mkHdTest [0xff; 0xff; 0xff; 0xff] [] (Some ErrUnknownHDKeyID);
    mkHdTest [0xff] [] (Some ErrUnknownHDKeyID) ];
  mkRegistryTest "register mocknet" [
    mkRegisterTest "mocknet" mockNetParams None ] [
    mkMagicTest (PubKeyHashAddrID (MainNetParams MainNet)) true;
    mkMagicTest (PubKeyHashAddrID (TestNet3Params TestNet3)) true;
    mkMagicTest (PubKeyHashAddrID (RegressionNetParams TestNet)) true;
    mkMagicTest (PubKeyHashAddrID (SimNetParams SimNet)) true;
    mkMagicTest (PubKeyHashAddrID mockNetParams) true;
    mkMagicTest 0xFF false ] [
    mkMagicTest (ScriptHashAddrID (MainNetParams MainNet)) true;
    mkMagicTest (ScriptHashAddrID (TestNet3Params TestNet3)) true;
    mkMagicTest (ScriptHashAddrID (RegressionNetParams TestNet)) true;
    mkMagicTest (ScriptHashAddrID (SimNetParams SimNet)) true;
    mkMagicTest (ScriptHashAddrID mockNetParams) true;
    mkMagicTest 0xFF false ] [
    mkPrefixTest (String.append (Bech32HRPSegwit (MainNetParams MainNet)) "1") true;
    mkPrefixTest (String.append (Bech32HRPSegwit (TestNet3Params TestNet3)) "1") true;
    mkPrefixTest (String.append (Bech32HRPSegwit (RegressionNetParams TestNet)) "1") true;
    mkPrefixTest (String.append (Bech32HRPSegwit (SimNetParams SimNet)) "1") true;
    mkPrefixTest
      (ToUpper unicodeUpper
         (String.append (Bech32HRPSegwit (MainNetParams MainNet)) "1")) true;
    mkPrefixTest (String.append (Bech32HRPSegwit mockNetParams) "1") true;
    mkPrefixTest "abc1" false;
    mkPrefixTest "1" false;
    mkPrefixTest (Bech32HRPSegwit (MainNetParams MainNet)) false ] [
    mkHdTest (slice4 (HDPrivateKeyID (mockNetParams))) (slice4 (HDPublicKeyID (mockNetParams))) None ];
  mkRegistryTest "more duplicates" [
    mkRegisterTest "duplicate mainnet" (MainNetParams MainNet) (Some ErrDuplicateNet);
    mkRegisterTest "duplicate regtest" (RegressionNetParams TestNet) (Some ErrDuplicateNet);
    mkRegisterTest "duplicate testnet3" (TestNet3Params TestNet3) (Some ErrDuplicateNet);
    mkRegisterTest "duplicate simnet" (SimNetParams SimNet) (Some ErrDuplicateNet);
    mkRegisterTest "duplicate mocknet" mockNetParams (Some ErrDuplicateNet) ] [
    mkMagicTest (PubKeyHashAddrID (MainNetParams MainNet)) true;
    mkMagicTest (PubKeyHashAddrID (TestNet3Params TestNet3)) true;
    mkMagicTest (PubKeyHashAddrID (RegressionNetParams TestNet)) true;
    mkMagicTest (PubKeyHashAddrID (SimNetParams SimNet)) true;
    mkMagicTest (PubKeyHashAddrID mockNetParams) true;
    mkMagicTest 0xFF false ] [
    mkMagicTest (ScriptHashAddrID (MainNetParams MainNet)) true;
    mkMagicTest (ScriptHashAddrID (TestNet3Params TestNet3)) true;
    mkMagicTest (ScriptHashAddrID (RegressionNetParams TestNet)) true;
    mkMagicTest (ScriptHashAddrID (SimNetParams SimNet)) true;
    mkMagicTest (ScriptHashAddrID mockNetParams) true;
    mkMagicTest 0xFF false ] [
    mkPrefixTest (String.append (Bech32HRPSegwit (MainNetParams MainNet)) "1") true;
    mkPrefixTest (String.append (Bech32HRPSegwit (TestNet3Params TestNet3)) "1") true;
    mkPrefixTest (String.append (Bech32HRPSegwit (RegressionNetParams TestNet)) "1") true;
    mkPrefixTest (String.append (Bech32HRPSegwit (SimNetParams SimNet)) "1") true;
    mkPrefixTest
      (ToUpper unicodeUpper
         (String.append (Bech32HRPSegwit (MainNetParams MainNet)) "1")) true;
    mkPrefixTest (String.append (Bech32HRPSegwit mockNetParams) "1") true;
    mkPrefixTest "abc1" false;
    mkPrefixTest "1" false;
    mkPrefixTest (Bech32HRPSegwit (MainNetParams MainNet)) false ] [
    mkHdTest (slice4 (HDPrivateKeyID (MainNetParams MainNet))) (slice4 (HDPublicKeyID (MainNetParams MainNet))) None;
    mkHdTest (slice4 (HDPrivateKeyID (TestNet3Params TestNet3))) (slice4 (HDPublicKeyID (TestNet3Params TestNet3))) None;
    mkHdTest (slice4 (HDPrivateKeyID (RegressionNetParams TestNet))) (slice4 (HDPublicKeyID (RegressionNetParams TestNet))) None;
    mkHdTest (slice4 (HDPrivateKeyID (SimNetParams SimNet))) (slice4 (HDPublicKeyID (SimNetParams SimNet))) None;
    mkHdTest (slice4 (HDPrivateKeyID (mockNetParams))) (slice4 (HDPublicKeyID (mockNetParams))) None;
    mkHdTest [0xff; 0xff; 0xff; 0xff] [] (Some ErrUnknownHDKeyID);
    mkHdTest [0xff] [] (Some ErrUnknownHDKeyID) ] ].

(** The number of [t.Errorf] calls of each of the five loops. *)
Fixpoint runRegister (regs : list registerTest) (r : Registry)
  : Registry * nat :=
  match regs with
  | [] => (r, O)
  | regTest :: regs' =>
      let '(r', err) := Register (regParams regTest) r in
      let '(r'', n) := runRegister regs' r' in
      (r'', if errEquals err (regErr regTest) then n else S n)
  end.

Definition countFailures {A} (ok : A -> bool) (l : list A) : nat :=
  length (filter (fun x => ok x = false) l).

Definition checkP2PKH (r : Registry) (t : magicTest) : bool :=
  Bool.eqb (IsPubKeyHashAddrID (magic t) r) (magicValid t).

Definition checkP2SH (r : Registry) (t : magicTest) : bool :=
  Bool.eqb (IsScriptHashAddrID (magic t) r) (magicValid t).

Definition checkPrefix (r : Registry) (t : prefixTest) : bool :=
  Bool.eqb (IsBech32SegwitPrefix unicodeLower (prefix t) r) (prefixValid t).

Definition checkHD (r : Registry) (t : hdTest) : bool :=
  match HDPrivateKeyToPublicKeyID (priv t) r with
  | inl pubKey =>
      errEquals None (hdErr t) &&
      negb (match hdErr t with None => true | Some _ => false end
            && negb (bytesEqual pubKey (want t)))
  | inr err => errEquals (Some err) (hdErr t)
  end.

Definition runTest (st : Registry * nat) (test : registryTest)
  : Registry * nat :=
  let '(r, n) := st in
  let '(r, n1) := runRegister (register test) r in
  (r, (n + n1
       + countFailures (checkP2PKH r) (p2pkhMagics test)
       + countFailures (checkP2SH r) (p2shMagics test)
       + countFailures (checkPrefix r) (segwitPrefixes test)
       + countFailures (checkHD r) (hdMagics test))%nat).

(** [TestRegister] on the registry it finds: the registry it leaves and
    the number of failures it reports. *)
Definition TestRegister (r : Registry) : Registry * nat :=
  fold_left runTest tests (r, O).

Local Abbreviation init' :=
  (init MainNet TestNet TestNet3 PktTestNet PktMainNet SimNet).
Local Abbreviation defaultNets' :=
  (defaultNets MainNet TestNet TestNet3 PktTestNet PktMainNet SimNet).

(** A registration test whose network is registered passes when it
    expects [ErrDuplicateNet], and leaves the registry as it is. *)
Lemma runRegister_duplicates (regs : list registerTest) (r : Registry) :
  Forall (fun t => Net (regParams t) ∈ registeredNets r /\
                   regErr t = Some ErrDuplicateNet) regs ->
  runRegister regs r = (r, O).
Proof.
  induction 1 as [|t ts [Hin Herr] _ IH]; [reflexivity|].
  cbn [runRegister]. rewrite (Register_registered _ _ Hin), IH, Herr.
  reflexivity.
Qed.

Lemma mustRegisterAll_nets (ps : list Params) (r r' : Registry) :
  mustRegisterAll ps r = Some r' ->
  forall n, n ∈ registeredNets r' <-> n ∈ Net <$> ps \/ n ∈ registeredNets r.
Proof.
  revert r. induction ps as [|p ps IH]; intros r; cbn [mustRegisterAll].
  - intros [= <-] n. set_solver.
  - destruct (mustRegister p r) as [r1|] eqn:H1; cbn; [|discriminate].
    intros Hrest n. rewrite (IH r1 Hrest).
    apply mustRegister_inv, Register_success_inv in H1 as (_ & -> & _).
    set_solver.
Qed.

(** X16. [TestRegister], run on the registry [init] leaves, reports no
    failure, provided the magic of its mock network is none of the six
    built-in ones; it leaves the registry with the mock network added. *)
Theorem TestRegister_passes (r0 : Registry) :
  init' = Some r0 ->
  Forall (fun n => n <> Net mockNetParams)
         [MainNet; TestNet; TestNet3; PktTestNet; PktMainNet; SimNet] ->
  TestRegister r0 = (fst (Register mockNetParams r0), O).
Proof.
  intros Hinit Hmock.
  destruct (init_tables MainNet TestNet TestNet3 PktTestNet PktMainNet
              SimNet r0 Hinit) as (Hpk & Hsh & Hbp & Hhd).
  pose proof (init_registers_defaults MainNet TestNet TestNet3 PktTestNet
                PktMainNet SimNet r0) as Hdefault.
  assert (Hfresh : Net mockNetParams ∉ registeredNets r0).
  { rewrite init_as_sequence in Hinit.
    rewrite (mustRegisterAll_nets _ _ _ Hinit). cbn.
    rewrite !Forall_cons in Hmock. set_solver. }
  pose proof (Register_fresh mockNetParams r0 Hfresh) as HR1.
  set (r1 := fst (Register mockNetParams r0)) in *.
  assert (Hin : forall p, In p defaultNets' -> Net p ∈ registeredNets r0)
    by (intros p Hp; exact (Hdefault p Hinit Hp)).
  assert (Hin1 : forall p, In p (mockNetParams :: defaultNets') ->
                           Net p ∈ registeredNets r1).
  { intros p [<-|Hp]; subst r1; rewrite HR1; cbn; [set_solver|].
    apply elem_of_union_r, Hin, Hp. }
  unfold TestRegister, tests. cbn [fold_left runTest register].
  rewrite (runRegister_duplicates _ r0)
    by (repeat constructor; cbn [regParams]; apply Hin;
        unfold defaultNets; cbn [In]; tauto).
  cbn [runTest register runRegister regParams regErr].
  replace (Register mockNetParams r0) with (r1, @None Err)
    by (subst r1; rewrite HR1; reflexivity).
  cbn [errEquals runTest register].
  rewrite (runRegister_duplicates _ r1)
    by (repeat constructor; cbn [regParams]; apply Hin1;
        unfold defaultNets; cbn [In]; tauto).
  f_equal.
  unfold countFailures, checkP2PKH, checkP2SH, checkPrefix, checkHD,
    IsPubKeyHashAddrID, IsScriptHashAddrID, IsBech32SegwitPrefix,
    HDPrivateKeyToPublicKeyID.
  subst r1. rewrite HR1. cbn [fst pubKeyHashAddrIDs scriptHashAddrIDs
    bech32SegwitPrefixes hdPrivToPubKeyIDs p2pkhMagics p2shMagics
    segwitPrefixes hdMagics].
  rewrite Hpk, Hsh, Hbp, Hhd. vm_compute. reflexivity.
Qed.

End TestRegister.

Lemma TestRegister_passes_witness :
  snd (TestRegister sampleMainNet sampleTestNet sampleTestNet3 sampleSimNet
         bytewiseLower bytewiseUpper sampleRegistry) = O.
Proof.
  rewrite (TestRegister_passes sampleMainNet sampleTestNet sampleTestNet3
             samplePktTestNet samplePktMainNet sampleSimNet
             bytewiseLower bytewiseUpper sampleRegistry sampleInit_succeeds).
  - reflexivity.
  - repeat constructor; vm_compute; discriminate.
Defined.

End chaincfg_more.

(** ** The interface test of the storage engine

    The helper functions of the interface test, run against the engine
    modelled from the specification. A helper returns [false] where the
    test calls [t.Errorf]. *)

Module btcdb_test.

Import btcdb.

#[local] Instance OutPoint_eq_dec : EqDecision OutPoint.
Proof. solve_decision. Defined.

#[local] Instance MsgTx_eq_dec : EqDecision MsgTx.
Proof. solve_decision. Defined.

#[local] Instance Block_eq_dec : EqDecision Block.
Proof. solve_decision. Defined.

(** Modelled from the spec: [ExistsSha] is true iff the hash is the key
    of a committed block. *)
Definition ExistsSha (sha : ShaHash) (db : Db) : bool :=
  bool_decide (is_Some (blocks db !! sha)).

(** Modelled from the spec: [FetchBlockBySha] returns the stored block
    and fails with [BlockNotFound]. *)
Definition FetchBlockBySha (sha : ShaHash) (db : Db) : Block + DbErr :=
  match blocks db !! sha with
  | Some (_, blk) => inl blk
  | None => inr BlockNotFound
  end.

(** [testContext], without the testing handle and the database type. *)
Record testContext : Type := mkContext {
  db : Db;
  blockHeight : Z;
  blockHash : ShaHash;
  block : Block
}.

(** [block.TxShas()]. *)
Definition TxShas (blk : Block) : list ShaHash :=
  TxSha <$> Transactions blk.

(** [testInsertBlock] also updates the database of the context. *)
Definition testInsertBlock (tc : testContext) : testContext * bool :=
  let '(db', res) := InsertBlock (block tc) (db tc) in
  let tc' := mkContext db' (blockHeight tc) (blockHash tc) (block tc) in
  match res with
  | inr _ => (tc', false)
  | inl newHeight => (tc', newHeight =? blockHeight tc)
  end.

Definition testExistsSha (tc : testContext) : bool :=
  ExistsSha (blockHash tc) (db tc).

Definition testFetchBlockBySha (tc : testContext) : bool :=
  match FetchBlockBySha (blockHash tc) (db tc) with
  | inr _ => false
  | inl blockFromDb => bool_decide (block tc = blockFromDb)
  end.

Definition testFetchBlockShaByHeight (tc : testContext) : bool :=
  match FetchBlockShaByHeight (blockHeight tc) (db tc) with
  | inr _ => false
  | inl hashFromDb =>
      (hashFromDb =? blockHash tc)%N &&
      forallb
        (fun wantHeight =>
           match FetchBlockShaByHeight wantHeight (db tc) with
           | inl _ => false
           | inr _ => true
           end)
        [-1; blockHeight tc + 1; blockHeight tc + 2]
  end.

Definition testExistsTxSha (tc : testContext) : bool :=
  forallb (fun txHash => ExistsTxSha txHash (db tc)) (TxShas (block tc)).

Definition testFetchTxBySha (tc : testContext) : bool :=
  forallb
    (fun tx =>
       match FetchTxBySha (TxSha tx) (db tc) with
       | inr _ => false
       | inl txReplyList =>
           match last txReplyList with
           | None => false
           | Some txD => bool_decide (Some tx = Tx txD)
           end
       end)
    (Transactions (block tc)).

(** The checks [testFetchTxByShaList] makes on the reply [txD] for the
    transaction [tx] with hash [txHash]. *)
Definition checkReply (tc : testContext) (tx : MsgTx) (txHash : ShaHash)
  (txD : TxListReply) : bool :=
  (Sha txD =? txHash)%N &&
  match Err txD with None => true | Some _ => false end &&
  bool_decide (Some tx = Tx txD) &&
  match BlkSha txD with
  | None => false
  | Some blkSha => (blkSha =? blockHash tc)%N
  end &&
  (Height txD =? blockHeight tc) &&
  match TxSpent txD with
  | None => false
  | Some spent => bool_decide (spent = replicate (NumTxOut tx) false)
  end.

Fixpoint checkReplies (tc : testContext) (txs : list MsgTx)
  (txHashes : list ShaHash) (txReplyList : list TxListReply) : bool :=
  match txs, txHashes, txReplyList with
  | [], _, _ => true
  | tx :: txs', txHash :: txHashes', txD :: txReplyList' =>
      checkReply tc tx txHash txD && checkReplies tc txs' txHashes' txReplyList'
  | _, _, _ => false
  end.

Definition testFetchTxByShaList (tc : testContext) : bool :=
  let txHashes := TxShas (block tc) in
  let txReplyList := FetchTxByShaList txHashes (db tc) in
  if negb (length txReplyList =? length txHashes)%nat then false
  else checkReplies tc (Transactions (block tc)) txHashes txReplyList.

End btcdb_test.

(** ** The engine passes the helpers of its interface test *)

Module btcdb_test_proofs.

Import btcdb btcdb_proofs btcdb_test.

(** What a successful [InsertBlock] leaves. *)
Lemma InsertBlock_success_inv (blk : Block) (d d' : Db) (h : Z) :
  InsertBlock blk d = (d', inl h) ->
  h = tipHeight d + 1 /\
  blocks d !! blockSha blk = None /\
  exists spent jr,
    spendAll (blockInputs blk)
      (foldl (addEntry (blockSha blk) h) (txIndex d) (Transactions blk), [])
      = Some (spent, jr) /\
    d' = mkDb (<[blockSha blk := (h, blk)]> (blocks d))
              (<[h := blockSha blk]> (heights d))
              spent
              (<[blockSha blk := jr]> (journal d))
              (blockSha blk) h.
Proof.
  unfold InsertBlock.
  destruct (negb (tipHeight d =? -1) && negb (prevSha blk =? tipSha d)%N);
    [discriminate|].
  destruct (decide (is_Some (blocks d !! blockSha blk))) as [Hdup|Hnew];
    [discriminate|].
  apply eq_None_not_Some in Hnew.
  destruct (spendAll _ _) as [[spent jr]|] eqn:Hspend; [|discriminate].
  intros [= <- <-]. split; [reflexivity|]. split; [exact Hnew|].
  exists spent, jr. split; [exact Hspend | reflexivity].
Qed.

(** X17. When [InsertBlock] accepts a block in a state of the engine, the
    block-level helpers of the interface test pass for that block at the
    next height: [testInsertBlock], [testExistsSha],
    [testFetchBlockBySha] and [testFetchBlockShaByHeight]. *)
Theorem block_helpers_pass (blk : Block) (d d' : Db) (h : Z) :
  reachable d ->
  InsertBlock blk d = (d', inl h) ->
  let before := mkContext d (tipHeight d + 1) (blockSha blk) blk in
  let after := mkContext d' (tipHeight d + 1) (blockSha blk) blk in
  testInsertBlock before = (after, true) /\
  testExistsSha after = true /\
  testFetchBlockBySha after = true /\
  testFetchBlockShaByHeight after = true.
Proof.
  intros Hreach Hins before after.
  pose proof (tip_lower d (reachable_consistent d Hreach)) as Hlow.
  destruct (InsertBlock_success_inv blk d d' h Hins)
    as (Hh & Hnew & spent & jr & _ & Hd').
  split; [|split; [|split]].
  - unfold testInsertBlock, before, after. cbn [block db blockHeight blockHash].
    rewrite Hins, Hh, Z.eqb_refl. reflexivity.
  - unfold testExistsSha, ExistsSha, after. cbn [db blockHash].
    apply bool_decide_eq_true. rewrite Hd'. cbn [blocks].
    rewrite lookup_insert_eq. eauto.
  - unfold testFetchBlockBySha, FetchBlockBySha, after. cbn [db blockHash block].
    rewrite Hd'. cbn [blocks]. rewrite lookup_insert_eq.
    apply bool_decide_eq_true. reflexivity.
  - unfold testFetchBlockShaByHeight, FetchBlockShaByHeight, after.
    cbn [db blockHash blockHeight forallb].
    rewrite Hd'. cbn [tipHeight heights]. rewrite <- Hh.
    replace ((h <? 0) || (h <? h)) with false by lia.
    rewrite lookup_insert_eq, N.eqb_refl.
    replace ((-1 <? 0) || (h <? -1)) with true by lia.
    replace ((h + 1 <? 0) || (h <? h + 1)) with true by lia.
    replace ((h + 2 <? 0) || (h <? h + 2)) with true by lia.
    reflexivity.
Qed.

Lemma block_helpers_pass_witness :
  testFetchBlockShaByHeight (mkContext chain3 2 12%N block2) = true.
Proof.
  destruct (block_helpers_pass block2
              (fst (InsertBlock block1 (fst (InsertBlock block0 emptyDb))))
              chain3 2) as (_ & _ & _ & H).
  - apply reachable_insert, reachable_insert, reachable_empty.
  - vm_compute. reflexivity.
  - exact H.
Defined.

(** *** The entries of the inserted block *)

Lemma entriesOf_insert (m : gmap ShaHash (list TxEntry)) (k s : ShaHash)
  (l : list TxEntry) :
  entriesOf (<[k := l]> m) s = if decide (k = s) then l else entriesOf m s.
Proof.
  unfold entriesOf. rewrite lookup_insert.
  destruct (decide (k = s)); reflexivity.
Qed.

Lemma foldl_addEntry_other (sha : ShaHash) (h : Z) (txs : list MsgTx)
  (m : gmap ShaHash (list TxEntry)) (s : ShaHash) :
  s ∉ TxSha <$> txs ->
  entriesOf (foldl (addEntry sha h) m txs) s = entriesOf m s.
Proof.
  revert m. induction txs as [|tx txs IH]; intros m Hs; [reflexivity|].
  rewrite fmap_cons, not_elem_of_cons in Hs. destruct Hs as [Hne Hs].
  cbn [foldl]. rewrite (IH _ Hs). unfold addEntry.
  rewrite entriesOf_insert, decide_False by congruence. reflexivity.
Qed.

Lemma foldl_addEntry_last (sha : ShaHash) (h : Z) (txs : list MsgTx)
  (m : gmap ShaHash (list TxEntry)) (tx : MsgTx) :
  NoDup (TxSha <$> txs) -> tx ∈ txs ->
  last (entriesOf (foldl (addEntry sha h) m txs) (TxSha tx))
  = Some (freshEntry sha h tx).
Proof.
  revert m. induction txs as [|tx0 txs IH]; intros m Hnd Hin.
  - inversion Hin.
  - rewrite fmap_cons, NoDup_cons in Hnd. destruct Hnd as [Hfresh Hnd].
    cbn [foldl]. apply elem_of_cons in Hin as [->|Hin].
    + rewrite (foldl_addEntry_other _ _ _ _ _ Hfresh). unfold addEntry.
      rewrite entriesOf_insert, decide_True by reflexivity.
      apply last_snoc.
    + apply IH; assumption.
Qed.

(** Two entries that differ at most in their spent bits. *)
Definition same_static (e e' : TxEntry) : Prop :=
  entryTx e = entryTx e' /\ entryBlkSha e = entryBlkSha e' /\
  entryHeight e = entryHeight e'.

Lemma same_static_lists_refl (l : list TxEntry) : Forall2 same_static l l.
Proof. induction l; constructor; [repeat split | assumption]. Qed.

Lemma same_static_alter (l : list TxEntry) (bit pos : nat) (v : bool) :
  Forall2 same_static l (alter (setBit bit v) pos l).
Proof.
  revert pos. induction l as [|e l IH]; intros [|pos]; cbn.
  - constructor.
  - constructor.
  - constructor; [repeat split | apply same_static_lists_refl].
  - constructor; [repeat split | apply IH].
Qed.

Lemma same_static_lists_trans (l1 l2 l3 : list TxEntry) :
  Forall2 same_static l1 l2 -> Forall2 same_static l2 l3 ->
  Forall2 same_static l1 l3.
Proof.
  intros H12. revert l3. induction H12 as [|e1 e2 l1 l2 He _ IH];
    intros l3 H23; inversion H23; subst; constructor.
  - destruct He as (A & B & C).
    match goal with H : same_static e2 _ |- _ => destruct H as (A' & B' & C') end.
    repeat split; congruence.
  - apply IH. assumption.
Qed.

Lemma spend_static st (op : OutPoint) st' (s : ShaHash) :
  spend st op = Some st' ->
  Forall2 same_static (entriesOf st.1 s) (entriesOf st'.1 s) /\
  (s <> opHash op -> entriesOf st'.1 s = entriesOf st.1 s).
Proof.
  destruct st as [m jr]. unfold spend. cbn [fst].
  destruct (findLast _ _) as [pos|]; cbn; [|discriminate].
  intros [= <-]. cbn [fst]. rewrite entriesOf_insert.
  destruct (decide (opHash op = s)) as [<-|Hne].
  - split; [apply same_static_alter | congruence].
  - split; [apply same_static_lists_refl | reflexivity].
Qed.

Lemma spendAll_static (ops : list OutPoint) st st' (s : ShaHash) :
  spendAll ops st = Some st' ->
  Forall2 same_static (entriesOf st.1 s) (entriesOf st'.1 s) /\
  (s ∉ opHash <$> ops -> entriesOf st'.1 s = entriesOf st.1 s).
Proof.
  revert st. induction ops as [|op ops IH]; intros st; cbn [spendAll].
  - intros [= <-]. split; [apply same_static_lists_refl | reflexivity].
  - destruct (spend st op) as [st1|] eqn:Hs; cbn; [|discriminate].
    intros Hrest. destruct (spend_static st op st1 s Hs) as [F1 E1].
    destruct (IH st1 Hrest) as [F2 E2]. split.
    + exact (same_static_lists_trans _ _ _ F1 F2).
    + rewrite ?fmap_cons, not_elem_of_cons. intros [Hne Hs'].
      rewrite (E2 Hs'), (E1 Hne). reflexivity.
Qed.

Lemma same_static_last (l l' : list TxEntry) (e : TxEntry) :
  Forall2 same_static l l' -> last l = Some e ->
  exists e', last l' = Some e' /\ same_static e e'.
Proof.
  intros HF Hlast. apply last_Some in Hlast as [l0 ->].
  apply Forall2_app_inv_l in HF as (k0 & k1 & _ & H1 & ->).
  inversion H1 as [|? e' ? ? He Hnil]; subst. inversion Hnil; subst.
  exists e'. split; [apply last_snoc | exact He].
Qed.

(** The entry of a transaction of the block just inserted. *)
Lemma inserted_entry (blk : Block) (d d' : Db) (h : Z) (tx : MsgTx) :
  InsertBlock blk d = (d', inl h) ->
  NoDup (TxShas blk) -> tx ∈ Transactions blk ->
  exists e,
    last (entriesOf (txIndex d') (TxSha tx)) = Some e /\
    entryTx e = tx /\ entryBlkSha e = blockSha blk /\ entryHeight e = h /\
    (TxSha tx ∉ opHash <$> blockInputs blk ->
     entrySpent e = replicate (NumTxOut tx) false).
Proof.
  intros Hins Hnd Htx.
  destruct (InsertBlock_success_inv blk d d' h Hins)
    as (_ & _ & spent & jr & Hspend & ->). cbn [txIndex].
  pose proof (foldl_addEntry_last (blockSha blk) h _ (txIndex d) tx Hnd Htx)
    as Hlast.
  destruct (spendAll_static _ _ _ (TxSha tx) Hspend) as [HF Heq].
  cbn [fst] in HF, Heq.
  destruct (same_static_last _ _ _ HF Hlast) as (e & He & S1 & S2 & S3).
  exists e. cbn in S1, S2, S3. repeat split; try congruence.
  intros Hfree. rewrite (Heq Hfree), Hlast in He. injection He as <-.
  reflexivity.
Qed.

Lemma checkReplies_all (tc : testContext) (txs : list MsgTx)
  (f : ShaHash -> TxListReply) :
  (forall tx, tx ∈ txs -> checkReply tc tx (TxSha tx) (f (TxSha tx)) = true) ->
  checkReplies tc txs (TxSha <$> txs) (f <$> (TxSha <$> txs)) = true.
Proof.
  induction txs as [|tx txs IH]; intros Hall; [reflexivity|].
  rewrite !fmap_cons. cbn [checkReplies].
  rewrite (Hall tx) by (apply elem_of_cons; left; reflexivity). cbn [andb].
  apply IH. intros tx' Htx'. apply Hall, elem_of_cons. right. exact Htx'.
Qed.

(** X18. When [InsertBlock] accepts a block whose transactions have
    pairwise distinct txids, the transaction-level helpers of the
    interface test pass: [testExistsTxSha] and [testFetchTxBySha]; and
    [testFetchTxByShaList], which also expects all-unspent outputs, passes
    when no input of the block refers to a transaction of the block. *)
Theorem tx_helpers_pass (blk : Block) (d d' : Db) (h : Z) :
  InsertBlock blk d = (d', inl h) ->
  NoDup (TxShas blk) ->
  let after := mkContext d' h (blockSha blk) blk in
  testExistsTxSha after = true /\
  testFetchTxBySha after = true /\
  ((forall op, op ∈ blockInputs blk -> opHash op ∉ TxShas blk) ->
   testFetchTxByShaList after = true).
Proof.
  intros Hins Hnd after.
  pose proof (fun tx => inserted_entry blk d d' h tx Hins Hnd) as Hentry.
  split; [|split].
  - unfold testExistsTxSha, after, TxShas. cbn [db block].
    apply forallb_forall. intros sha Hsha.
    apply list_elem_of_In, list_elem_of_fmap in Hsha as (tx & -> & Htx).
    destruct (Hentry tx Htx) as (e & He & _). unfold ExistsTxSha.
    destruct (entriesOf (txIndex d') (TxSha tx)); [discriminate He|].
    reflexivity.
  - unfold testFetchTxBySha, after. cbn [db block].
    apply forallb_forall. intros tx Htx. apply list_elem_of_In in Htx.
    destruct (Hentry tx Htx) as (e & He & Hetx & _). unfold FetchTxBySha.
    destruct (entriesOf (txIndex d') (TxSha tx)) as [|e0 l] eqn:El;
      [discriminate He|].
    rewrite fmap_last, He. cbn. apply bool_decide_eq_true. congruence.
  - intros Hfree. unfold testFetchTxByShaList, after.
    cbn [db block]. unfold FetchTxByShaList, TxShas.
    rewrite !length_fmap, Nat.eqb_refl. cbn [negb].
    assert (Hall : forall tx, tx ∈ Transactions blk ->
              checkReply (mkContext d' h (blockSha blk) blk) tx (TxSha tx)
                match last (entriesOf (txIndex d') (TxSha tx)) with
                | Some e => replyOf (TxSha tx) e
                | None => replyErr (TxSha tx) TxNotFound
                end = true).
    { intros tx Htx. destruct (Hentry tx Htx) as (e & -> & E1 & E2 & E3 & E4).
      unfold checkReply, replyOf.
      cbn [Sha Err Tx BlkSha Height TxSpent blockHash blockHeight].
      rewrite E1, E2, E3, E4, !N.eqb_refl, Z.eqb_refl.
      - rewrite !bool_decide_eq_true_2 by reflexivity. reflexivity.
      - intros Hin. apply list_elem_of_fmap in Hin as (op & Hop & Hin).
        apply (Hfree op Hin). unfold TxShas. rewrite <- Hop.
        apply list_elem_of_fmap_2, Htx. }
    apply (checkReplies_all _ _
             (fun sha => match last (entriesOf (txIndex d') sha) with
                         | Some e => replyOf sha e
                         | None => replyErr sha TxNotFound
                         end)).
    exact Hall.
Qed.

Lemma tx_helpers_pass_witness :
  testFetchTxBySha (mkContext chain3 2 12%N block2) = true.
Proof.
  destruct (tx_helpers_pass block2
              (fst (InsertBlock block1 (fst (InsertBlock block0 emptyDb))))
              chain3 2) as (_ & H & _).
  - vm_compute. reflexivity.
  - apply (bool_decide_unpack _). vm_compute. reflexivity.
  - exact H.
Defined.

End btcdb_test_proofs.
